(** * Moral Maze: session core, verified against its specification

    A shallow embedding of [moralmaze/core/maze.py], [moralmaze/core/state.py]
    and [moralmaze/server/controller.py].

    Conventions of the embedding:
    - Python [int] is [Z]; wall-clock readings ([time.time()]) are rationals
      [Q] (floating-point rounding is not modelled);
    - sets of coordinates are [gset (Z * Z)], dictionaries are [gmap];
    - a reference to a [Cell] object is the coordinate pair under which the
      object is stored in [maze.grid], so that in-place mutation of a cell is
      an update of the grid at that coordinate;
    - the module-level [random] generator is an explicit state that is
      threaded through every function that draws from it;
    - an attribute that Python code probes with [hasattr]/[getattr] is an
      [option]: [None] means that the attribute does not exist. *)

From Stdlib Require Import ZArith QArith Qround Lqa Lia.
From stdpp Require Import gmap strings pretty list fin_maps.

Local Open Scope Z_scope.

(** ** The random source

    [random] is Python's standard library, not code of this repository.  Its
    generator is taken as an interface: the operations that the repository
    calls, with the facts the library guarantees about them. *)

Class RandomSource := {
  rng : Type;
  (** [random.seed(n)]: the state depends on [n] only. *)
  rng_seed : Z → rng;
  (** [_randbelow(n)], an index below [n]. *)
  randbelow : nat → rng → nat * rng;
  randbelow_lt : ∀ n g, (0 < n)%nat → ((randbelow n g).1 < n)%nat;
  (** [random.random()], a number in the unit interval. *)
  random_unit : rng → Q * rng;
  (** [random.shuffle(l)], an in-place permutation of [l]. *)
  shuffle : ∀ {A : Type}, list A → rng → list A * rng;
  shuffle_perm : ∀ (A : Type) (l : list A) g, (shuffle l g).1 ≡ₚ l;
}.

Section Random.
Context `{RandomSource}.

(** [random.choice(seq)] is [seq[_randbelow(len(seq))]]; on an empty
    sequence it raises [IndexError], here [None]. *)
Definition choice {A : Type} (l : list A) (g : rng) : option (A * rng) :=
  match l with
  | [] => None
  | _ => let '(i, g') := randbelow (length l) g in
         (λ a, (a, g')) <$> l !! i
  end.

(** [random.randint(a, b)] is [a + _randbelow(b - a + 1)]. *)
Definition randint (a b : Z) (g : rng) : Z * rng :=
  let '(i, g') := randbelow (Z.to_nat (b - a + 1)) g in (a + Z.of_nat i, g').
End Random.

(** ** maze.py: cells and mazes *)

Inductive Direction := north | south | east | west.

#[global] Instance Direction_eq_dec : EqDecision Direction.
Proof. solve_decision. Defined.

(** The keys of [Cell.walls] and of [directions] in [get_neighbors], in
    insertion order. *)
Definition directions : list Direction := [north; south; east; west].

(** [DIR_TO_DELTA] (controller.py) and [directions] (maze.py). *)
Definition DIR_TO_DELTA (d : Direction) : Z * Z :=
  match d with
  | north => (0, -1)
  | south => (0, 1)
  | east => (1, 0)
  | west => (-1, 0)
  end.

(** [opposite] (maze.py) and [OPPOSITE_DIRECTION] (controller.py). *)
Definition opposite (d : Direction) : Direction :=
  match d with
  | north => south
  | south => north
  | east => west
  | west => east
  end.

(** [walls: dict[str, bool]] with its four fixed keys; [true] is a wall. *)
Record Walls := mkWalls {
  wall_north : bool; wall_south : bool; wall_east : bool; wall_west : bool }.

Definition wall_get (w : Walls) (d : Direction) : bool :=
  match d with
  | north => wall_north w
  | south => wall_south w
  | east => wall_east w
  | west => wall_west w
  end.

Definition wall_set (d : Direction) (b : bool) (w : Walls) : Walls :=
  match d with
  | north => mkWalls b (wall_south w) (wall_east w) (wall_west w)
  | south => mkWalls (wall_north w) b (wall_east w) (wall_west w)
  | east => mkWalls (wall_north w) (wall_south w) b (wall_west w)
  | west => mkWalls (wall_north w) (wall_south w) (wall_east w) b
  end.

Record Cell := mkCell {
  cell_x : Z;
  cell_y : Z;
  walls : Walls;
  visited : bool;
  decision_node : bool }.

(** [Cell(x, y)] with the dataclass defaults. *)
Definition new_cell (x y : Z) : Cell :=
  mkCell x y (mkWalls true true true true) false false.

Definition open_directions (c : Cell) : list Direction :=
  filter (λ d, wall_get (walls c) d = false) directions.

Definition opening_count (c : Cell) : Z := Z.of_nat (length (open_directions c)).

Definition set_wall (d : Direction) (b : bool) (c : Cell) : Cell :=
  mkCell (cell_x c) (cell_y c) (wall_set d b (walls c)) (visited c) (decision_node c).

Definition set_visited (b : bool) (c : Cell) : Cell :=
  mkCell (cell_x c) (cell_y c) (walls c) b (decision_node c).

Definition set_decision_node (b : bool) (c : Cell) : Cell :=
  mkCell (cell_x c) (cell_y c) (walls c) (visited c) b.

Abbreviation Grid := (list (list Cell)).

(** [grid[y][x]] for non-negative indices. *)
Definition grid_get (g : Grid) (p : Z * Z) : option Cell :=
  g !! Z.to_nat p.2 ≫= λ row, row !! Z.to_nat p.1.

(** In-place mutation of the cell object stored at [grid[y][x]]. *)
Definition grid_alter (f : Cell → Cell) (p : Z * Z) (g : Grid) : Grid :=
  alter (alter f (Z.to_nat p.1)) (Z.to_nat p.2) g.

Record Maze := mkMaze {
  width : Z;
  height : Z;
  seed : Z;
  grid : Grid;
  start_pos : Z * Z }.

Definition in_bounds (w h : Z) (p : Z * Z) : bool :=
  bool_decide (0 ≤ p.1 < w ∧ 0 ≤ p.2 < h).

Definition get_cell (m : Maze) (p : Z * Z) : option Cell :=
  if in_bounds (width m) (height m) p then grid_get (grid m) p else None.

Definition step_from (p : Z * Z) (d : Direction) : Z * Z :=
  (p.1 + (DIR_TO_DELTA d).1, p.2 + (DIR_TO_DELTA d).2).

(** [Maze.get_neighbors]: the in-bounds neighbours of [cell], as references,
    each with the direction that leads to it. *)
Definition get_neighbors (m : Maze) (c : Cell) : list ((Z * Z) * Direction) :=
  omap (λ d, let n := step_from (cell_x c, cell_y c) d in
             (λ _, (n, d)) <$> get_cell m n) directions.

Definition can_move (from_cell : Cell) (d : Direction) : bool :=
  negb (wall_get (walls from_cell) d).

(** [range(n)]. *)
Definition range (n : Z) : list Z := seqZ 0 n.

(** [(x, y) for y in range(height) for x in range(width)]. *)
Definition coords (w h : Z) : list (Z * Z) :=
  y ← range h; (λ x, (x, y)) <$> range w.

Section Generate.
Context `{RandomSource}.

Definition with_grid (m : Maze) (g : Grid) : Maze :=
  mkMaze (width m) (height m) (seed m) g (start_pos m).

(** The [while stack:] loop.  The Python list [stack] is kept with its
    last element first.  [fuel] bounds the iterations; [None] means that
    the bound was reached (or that a reference dangles, which cannot
    happen in Python). *)
Fixpoint carve (fuel : nat) (m : Maze) (stack : list (Z * Z)) (g : rng)
    : option (Maze * rng) :=
  match stack with
  | [] => Some (m, g)
  | current :: rest =>
    match fuel with
    | O => None
    | S fuel' =>
      c ← get_cell m current;
      let unvisited_neighbors :=
        filter (λ nd, (visited <$> get_cell m nd.1) = Some false)
               (get_neighbors m c) in
      match unvisited_neighbors with
      | [] => carve fuel' m rest g
      | _ =>
        '(next_cell, direction, g') ← choice unvisited_neighbors g;
        let gr := grid_alter (set_wall direction false) current (grid m) in
        let gr := grid_alter (set_wall (opposite direction) false) next_cell gr in
        let gr := grid_alter (set_visited true) next_cell gr in
        carve fuel' (with_grid m gr) (next_cell :: stack) g'
      end
    end
  end.

(** The first annotation pass: cells with at least three openings become
    decision nodes with probability 0.3. *)
Fixpoint mark_pass (ps : list (Z * Z)) (gr : Grid) (decision_nodes : list (Z * Z))
    (g : rng) : option (Grid * list (Z * Z) * rng) :=
  match ps with
  | [] => Some (gr, decision_nodes, g)
  | p :: ps' =>
    cell ← grid_get gr p;
    if bool_decide (3 ≤ opening_count cell) then
      let '(r, g') := random_unit g in
      if Qlt_le_dec r (3 # 10) then
        mark_pass ps' (grid_alter (set_decision_node true) p gr)
                  (decision_nodes ++ [p]) g'
      else mark_pass ps' gr decision_nodes g'
    else mark_pass ps' gr decision_nodes g
  end.

Definition is_candidate (gr : Grid) (p : Z * Z) : bool :=
  match grid_get gr p with
  | Some cell => bool_decide (2 ≤ opening_count cell) && negb (decision_node cell)
  | None => false
  end.

(** [generate_maze(width, height, seed)].  [g0] is the state of the global
    generator when the function is entered; the result carries the state
    it leaves behind.  [None] is the [IndexError] of [maze.grid[0][0]]. *)
Definition generate_maze (width height : Z) (seed : option Z) (g0 : rng)
    : option (Maze * rng) :=
  let '(seed, g0) := match seed with
                     | Some s => (s, g0)
                     | None => randint 1 999999 g0
                     end in
  let g := rng_seed seed in
  let gr := (λ y, (λ x, new_cell x y) <$> range width) <$> range height in
  let maze := mkMaze width height seed gr (0, 0) in
  _ ← grid_get gr (0, 0);
  let maze := with_grid maze (grid_alter (set_visited true) (0, 0) gr) in
  '(maze, g) ← carve (2 * Z.to_nat width * Z.to_nat height) maze [(0, 0)] g;
  '(gr, decision_nodes, g) ← mark_pass (coords width height) (grid maze) [] g;
  let '(gr, g) :=
    if bool_decide (Z.of_nat (length decision_nodes) < 5) then
      let candidates := filter (λ p, is_candidate gr p = true) (coords width height) in
      let '(candidates, g) := shuffle candidates g in
      (foldl (λ gr p, grid_alter (set_decision_node true) p gr) gr
             (take (Z.to_nat (5 - Z.of_nat (length decision_nodes))) candidates), g)
    else (gr, g) in
  Some (mkMaze width height seed gr (0, 0), g).
End Generate.

(** ** models.py *)

Record ValueDimensions := mkValueDimensions {
  empathy : Z; integrity : Z; courage : Z; responsibility : Z; independence : Z }.

Definition ValueDimensions_valid (v : ValueDimensions) : bool :=
  bool_decide (-999 ≤ empathy v ≤ 999 ∧ -999 ≤ integrity v ≤ 999
    ∧ -999 ≤ courage v ≤ 999 ∧ -999 ≤ responsibility v ≤ 999
    ∧ -999 ≤ independence v ≤ 999).

Definition add_delta (v delta : ValueDimensions) : ValueDimensions :=
  mkValueDimensions (empathy v + empathy delta) (integrity v + integrity delta)
    (courage v + courage delta) (responsibility v + responsibility delta)
    (independence v + independence delta).

Record Question := mkQuestion {
  question_ident : string;  (* the field [id] *)
  prompt : string;
  options : list string;
  difficulty : Q;
  tags : option (list string) }.

Record Answer := mkAnswer {
  choice_id : option Z;
  free_text : option string }.

(** [not self.free_text]: [None] and the empty string are falsy. *)
Definition is_empty (a : Answer) : bool :=
  match choice_id a, free_text a with
  | None, None => true
  | None, Some t => bool_decide (t = "")
  | Some _, _ => false
  end.

Record Review := mkReview {
  growth_delta : Z;
  match_score : Q;
  feedback : string }.

Record DecisionRecord := mkDecisionRecord {
  question : Question;
  answer : Answer;
  review : Review;
  age_at_decision : Z;
  stage_at_decision : string }.

Record GrowthRecord := mkGrowthRecord {
  question_id : string;
  growth_prompt : string;
  growth_age : Z;
  growth_stage : string;
  value_delta : ValueDimensions;
  perspectives : gmap string string;
  notes : option string }.

(** A trap dictionary as [place_trap] builds it. *)
Record Trap := mkTrap {
  trap_type : string;
  trap_x : Z;
  trap_y : Z;
  placed_at : Q;
  reveal_at : Q;
  expires_at : Q }.

(** ** rules.py *)

Definition STAGE_RANGES : list (string * (Z * Z)) :=
  [("child", (0, 9)); ("preteen", (10, 12)); ("teen", (13, 17));
   ("young_adult", (18, 24)); ("adult", (25, 39)); ("mature", (40, 59));
   ("senior", (60, 120))].

Definition compute_stage_by_age (age : Z) : string :=
  match filter (λ r, r.2.1 ≤ age ≤ r.2.2) STAGE_RANGES with
  | r :: _ => r.1
  | [] => "senior"
  end.

(** ** state.py: GameState

    The first block of fields is what [__init__] creates.  The fields
    of the second block are created later by the controller's [_sync_*]
    passes and do not exist on a fresh object. *)

Record GameState := mkGameState {
  age : Z;
  stage : string;
  history : list DecisionRecord;
  state_seed : Z;
  total_growth : Z;
  hero_health : Z;
  value_dimensions : ValueDimensions;
  growth_history : list GrowthRecord;
  jump_charges : Z;
  jump_bonus_awarded : Z;
  ally_jump_charges : Z;
  ally_last_jump_bonus_ts : option Q;
  ally_freeze_charges : Z;
  ally_freeze_initial_bonus_awarded : bool;
  ally_freeze_last_bonus_ts : option Q;
  ally_expand_charges : Z;
  ally_expand_initial_bonus_awarded : bool;
  ally_expand_last_bonus_ts : option Q;
  ally_lift_charges : Z;
  ally_lift_initial_bonus_awarded : bool;
  ally_lift_last_bonus_ts : option Q;
  ally_blink_charges : Z;
  ally_blink_last_bonus_ts : option Q;
  ally_position : option (Z * Z);
  ally_trap_charges : Z;
  ally_trap_last_bonus_ts : option Q;
  traps : list Trap;
  hero_escape_charges : Z;
  hero_escape_last_age : Z;
  active_decisions : gset (Z * Z);
  current_position : Z * Z;
  visited_nodes : gset (Z * Z);
  (* created by the controller *)
  shield_charges : option Z;
  shield_last_age : option Z;
  shield_active_until : option (option Q);
  ally_dissolve_charges : option Z;
  ally_dissolve_last_bonus_ts : option Q;
  ally_dissolve_max_charges : option Z;
  dissolved_nodes : option (gmap (Z * Z) Q) }.

Definition eta_GameState (s : GameState) : GameState :=
  mkGameState (age s) (stage s) (history s) (state_seed s) (total_growth s)
    (hero_health s) (value_dimensions s) (growth_history s) (jump_charges s)
    (jump_bonus_awarded s) (ally_jump_charges s) (ally_last_jump_bonus_ts s)
    (ally_freeze_charges s) (ally_freeze_initial_bonus_awarded s)
    (ally_freeze_last_bonus_ts s) (ally_expand_charges s)
    (ally_expand_initial_bonus_awarded s) (ally_expand_last_bonus_ts s)
    (ally_lift_charges s) (ally_lift_initial_bonus_awarded s)
    (ally_lift_last_bonus_ts s) (ally_blink_charges s)
    (ally_blink_last_bonus_ts s) (ally_position s) (ally_trap_charges s)
    (ally_trap_last_bonus_ts s) (traps s) (hero_escape_charges s)
    (hero_escape_last_age s) (active_decisions s) (current_position s)
    (visited_nodes s) (shield_charges s) (shield_last_age s)
    (shield_active_until s) (ally_dissolve_charges s)
    (ally_dissolve_last_bonus_ts s) (ally_dissolve_max_charges s)
    (dissolved_nodes s).

(** Attribute assignment [state.f = v]: the record with field [f] replaced. *)
Ltac setter eta proj :=
  let v := fresh "v" in
  let r := fresh "r" in
  intros v r;
  let body := eval cbv beta delta [eta] in (eta r) in
  match eval pattern (proj r) in body with
  | ?f _ => let t := eval cbv beta in (f v) in exact t
  end.

Definition with_age : Z → GameState → GameState := ltac:(setter eta_GameState age).
Definition with_stage : string → GameState → GameState := ltac:(setter eta_GameState stage).
Definition with_history : list DecisionRecord → GameState → GameState := ltac:(setter eta_GameState history).
Definition with_state_seed : Z → GameState → GameState := ltac:(setter eta_GameState state_seed).
Definition with_total_growth : Z → GameState → GameState := ltac:(setter eta_GameState total_growth).
Definition with_hero_health : Z → GameState → GameState := ltac:(setter eta_GameState hero_health).
Definition with_value_dimensions : ValueDimensions → GameState → GameState := ltac:(setter eta_GameState value_dimensions).
Definition with_growth_history : list GrowthRecord → GameState → GameState := ltac:(setter eta_GameState growth_history).
Definition with_jump_charges : Z → GameState → GameState := ltac:(setter eta_GameState jump_charges).
Definition with_jump_bonus_awarded : Z → GameState → GameState := ltac:(setter eta_GameState jump_bonus_awarded).
Definition with_ally_jump_charges : Z → GameState → GameState := ltac:(setter eta_GameState ally_jump_charges).
Definition with_ally_last_jump_bonus_ts : option Q → GameState → GameState := ltac:(setter eta_GameState ally_last_jump_bonus_ts).
Definition with_ally_freeze_charges : Z → GameState → GameState := ltac:(setter eta_GameState ally_freeze_charges).
Definition with_ally_freeze_initial_bonus_awarded : bool → GameState → GameState := ltac:(setter eta_GameState ally_freeze_initial_bonus_awarded).
Definition with_ally_freeze_last_bonus_ts : option Q → GameState → GameState := ltac:(setter eta_GameState ally_freeze_last_bonus_ts).
Definition with_ally_expand_charges : Z → GameState → GameState := ltac:(setter eta_GameState ally_expand_charges).
Definition with_ally_expand_initial_bonus_awarded : bool → GameState → GameState := ltac:(setter eta_GameState ally_expand_initial_bonus_awarded).
Definition with_ally_expand_last_bonus_ts : option Q → GameState → GameState := ltac:(setter eta_GameState ally_expand_last_bonus_ts).
Definition with_ally_lift_charges : Z → GameState → GameState := ltac:(setter eta_GameState ally_lift_charges).
Definition with_ally_lift_initial_bonus_awarded : bool → GameState → GameState := ltac:(setter eta_GameState ally_lift_initial_bonus_awarded).
Definition with_ally_lift_last_bonus_ts : option Q → GameState → GameState := ltac:(setter eta_GameState ally_lift_last_bonus_ts).
Definition with_ally_blink_charges : Z → GameState → GameState := ltac:(setter eta_GameState ally_blink_charges).
Definition with_ally_blink_last_bonus_ts : option Q → GameState → GameState := ltac:(setter eta_GameState ally_blink_last_bonus_ts).
Definition with_ally_position : option (Z * Z) → GameState → GameState := ltac:(setter eta_GameState ally_position).
Definition with_ally_trap_charges : Z → GameState → GameState := ltac:(setter eta_GameState ally_trap_charges).
Definition with_ally_trap_last_bonus_ts : option Q → GameState → GameState := ltac:(setter eta_GameState ally_trap_last_bonus_ts).
Definition with_traps : list Trap → GameState → GameState := ltac:(setter eta_GameState traps).
Definition with_hero_escape_charges : Z → GameState → GameState := ltac:(setter eta_GameState hero_escape_charges).
Definition with_hero_escape_last_age : Z → GameState → GameState := ltac:(setter eta_GameState hero_escape_last_age).
Definition with_active_decisions : gset (Z * Z) → GameState → GameState := ltac:(setter eta_GameState active_decisions).
Definition with_current_position : Z * Z → GameState → GameState := ltac:(setter eta_GameState current_position).
Definition with_visited_nodes : gset (Z * Z) → GameState → GameState := ltac:(setter eta_GameState visited_nodes).
Definition with_shield_charges : option Z → GameState → GameState := ltac:(setter eta_GameState shield_charges).
Definition with_shield_last_age : option Z → GameState → GameState := ltac:(setter eta_GameState shield_last_age).
Definition with_shield_active_until : option (option Q) → GameState → GameState := ltac:(setter eta_GameState shield_active_until).
Definition with_ally_dissolve_charges : option Z → GameState → GameState := ltac:(setter eta_GameState ally_dissolve_charges).
Definition with_ally_dissolve_last_bonus_ts : option Q → GameState → GameState := ltac:(setter eta_GameState ally_dissolve_last_bonus_ts).
Definition with_ally_dissolve_max_charges : option Z → GameState → GameState := ltac:(setter eta_GameState ally_dissolve_max_charges).
Definition with_dissolved_nodes : option (gmap (Z * Z) Q) → GameState → GameState := ltac:(setter eta_GameState dissolved_nodes).

(** [SaveData]: the snapshot that is written to disk. *)
Record SaveData := mkSaveData {
  sd_age : Z;
  sd_stage : string;
  sd_history : list DecisionRecord;
  sd_value_dimensions : ValueDimensions;
  sd_growth_history : list GrowthRecord;
  sd_seed : Z;
  sd_total_growth : Z;
  sd_hero_health : Z;
  sd_jump_charges : Z;
  sd_jump_bonus_awarded : Z;
  sd_ally_jump_charges : Z;
  sd_ally_last_jump_bonus_ts : option Q;
  sd_ally_freeze_charges : Z;
  sd_ally_freeze_initial_bonus_awarded : bool;
  sd_ally_freeze_last_bonus_ts : option Q;
  sd_ally_expand_charges : Z;
  sd_ally_expand_initial_bonus_awarded : bool;
  sd_ally_expand_last_bonus_ts : option Q;
  sd_ally_lift_charges : Z;
  sd_ally_lift_initial_bonus_awarded : bool;
  sd_ally_lift_last_bonus_ts : option Q;
  sd_ally_blink_charges : Z;
  sd_ally_blink_last_bonus_ts : option Q;
  sd_ally_position : option (Z * Z);
  sd_ally_trap_charges : Z;
  sd_ally_trap_last_bonus_ts : option Q;
  sd_traps : list Trap;
  sd_hero_escape_charges : Z;
  sd_hero_escape_last_age : Z;
  sd_active_decisions : list (Z * Z);
  sd_shield_charges : Z;
  sd_shield_last_age : Z;
  sd_shield_active_until : option Q }.

(** The field constraints ([ge], [le]) that pydantic checks when a
    [SaveData] is constructed. *)
Definition SaveData_valid (d : SaveData) : bool :=
  bool_decide (0 ≤ sd_hero_health d ≤ 100 ∧ 0 ≤ sd_jump_charges d
    ∧ 0 ≤ sd_jump_bonus_awarded d ∧ 0 ≤ sd_ally_jump_charges d
    ∧ 0 ≤ sd_ally_freeze_charges d ∧ 0 ≤ sd_ally_expand_charges d
    ∧ 0 ≤ sd_ally_lift_charges d ∧ 0 ≤ sd_ally_blink_charges d
    ∧ 0 ≤ sd_ally_trap_charges d ∧ 0 ≤ sd_hero_escape_charges d
    ∧ 0 ≤ sd_shield_charges d ∧ 0 ≤ sd_shield_last_age d).

(** [GameState.__init__(save_data)]; [now] is the reading of the clock. *)
Definition GameState_init (save_data : option SaveData) (now : Q) : GameState :=
  let or_now (ts : option Q) := match ts with None => Some now | _ => ts end in
  match save_data with
  | Some d =>
    mkGameState (sd_age d) (sd_stage d) (sd_history d) (sd_seed d)
      (sd_total_growth d) (sd_hero_health d) (sd_value_dimensions d)
      (sd_growth_history d) (sd_jump_charges d) (sd_jump_bonus_awarded d)
      (sd_ally_jump_charges d) (or_now (sd_ally_last_jump_bonus_ts d))
      (sd_ally_freeze_charges d) (sd_ally_freeze_initial_bonus_awarded d)
      (or_now (sd_ally_freeze_last_bonus_ts d))
      (sd_ally_expand_charges d) (sd_ally_expand_initial_bonus_awarded d)
      (or_now (sd_ally_expand_last_bonus_ts d))
      (sd_ally_lift_charges d) (sd_ally_lift_initial_bonus_awarded d)
      (or_now (sd_ally_lift_last_bonus_ts d))
      (sd_ally_blink_charges d) (or_now (sd_ally_blink_last_bonus_ts d))
      (sd_ally_position d)
      (sd_ally_trap_charges d) (or_now (sd_ally_trap_last_bonus_ts d))
      (sd_traps d) (sd_hero_escape_charges d) (sd_hero_escape_last_age d)
      (list_to_set (sd_active_decisions d))
      (0, 0) ∅ None None None None None None None
  | None =>
    mkGameState 10 "preteen" [] 0 0 100 (mkValueDimensions 0 0 0 0 0) []
      2 0 2 (Some now) 0 false (Some now) 0 false (Some now) 0 false (Some now)
      1 (Some now) None 1 (Some now) [] 0 0 ∅
      (0, 0) ∅ None None None None None None None
  end.

(** [GameState.to_save_data]: [None] when an attribute it reads does not
    exist ([AttributeError]) or when the snapshot fails validation. *)
Definition to_save_data (s : GameState) : option SaveData :=
  sc ← shield_charges s;
  sl ← shield_last_age s;
  su ← shield_active_until s;
  let d :=
    mkSaveData (age s) (stage s) (history s) (value_dimensions s)
      (growth_history s) (state_seed s) (total_growth s) (hero_health s)
      (jump_charges s) (jump_bonus_awarded s) (ally_jump_charges s)
      (ally_last_jump_bonus_ts s) (ally_freeze_charges s)
      (ally_freeze_initial_bonus_awarded s) (ally_freeze_last_bonus_ts s)
      (ally_expand_charges s) (ally_expand_initial_bonus_awarded s)
      (ally_expand_last_bonus_ts s) (ally_lift_charges s)
      (ally_lift_initial_bonus_awarded s) (ally_lift_last_bonus_ts s)
      (ally_blink_charges s) (ally_blink_last_bonus_ts s) (ally_position s)
      (ally_trap_charges s) (ally_trap_last_bonus_ts s) (traps s)
      (hero_escape_charges s) (hero_escape_last_age s)
      (elements (active_decisions s)) sc sl su in
  if SaveData_valid d then Some d else None.

Definition apply_growth (delta : Z) (s : GameState) : GameState :=
  let s := with_age (age s + delta) s in
  let s := with_total_growth (total_growth s + delta) s in
  let s := if bool_decide (age s < 10) then with_age 10 s else s in
  with_stage (compute_stage_by_age (age s)) s.

(** [ValueDimensions.add_delta] constructs a new [ValueDimensions]; its
    fields are validated ([ge=-999], [le=999]), and [None] is the
    validation error. *)
Definition apply_value_delta (delta : ValueDimensions) (s : GameState) : option GameState :=
  let v := add_delta (value_dimensions s) delta in
  if ValueDimensions_valid v then Some (with_value_dimensions v s) else None.

Definition append_decision (record : DecisionRecord) (s : GameState) : GameState :=
  with_history (history s ++ [record]) s.

Definition append_growth_record (record : GrowthRecord) (s : GameState) : GameState :=
  with_growth_history (growth_history s ++ [record]) s.

Definition is_goal_reached (goal_age : Z) (s : GameState) : bool :=
  bool_decide (goal_age ≤ age s).

Definition get_history_tags (s : GameState) : list string :=
  record ← history s; default [] (tags (question record)).

(** [mark_node_visited]: the new state and the returned flag. *)
Definition mark_node_visited (node : Z * Z) (s : GameState) : GameState * bool :=
  if bool_decide (node ∈ visited_nodes s) then (s, false)
  else (with_visited_nodes ({[node]} ∪ visited_nodes s) s, true).

(** ** controller.py: regeneration passes

    Each pass reads the clock once; [now] is that reading. *)

(** [int(elapsed // interval)]. *)
Definition whole_intervals (elapsed interval : Q) : Z := Qfloor (elapsed / interval).

Definition _replenish_ally_jump_charges (now : Q) (s : GameState) : GameState :=
  match ally_last_jump_bonus_ts s with
  | None => with_ally_last_jump_bonus_ts (Some now) s
  | Some last_ts =>
    let elapsed := (now - last_ts)%Q in
    let interval := 15 in
    let cap := 4 in
    if Qle_bool (inject_Z interval) elapsed then
      let bonus := whole_intervals elapsed (inject_Z interval) in
      let current := Z.max 0 (ally_jump_charges s) in
      let s := with_ally_jump_charges (Z.min cap (current + bonus)) s in
      with_ally_last_jump_bonus_ts (Some (last_ts + inject_Z (bonus * interval))%Q) s
    else s
  end.

Definition _replenish_freeze_charges (now : Q) (s : GameState) : GameState :=
  match ally_freeze_last_bonus_ts s with
  | None => with_ally_freeze_last_bonus_ts (Some now) s
  | Some last_ts =>
    if negb (ally_freeze_initial_bonus_awarded s) then
      if Qle_bool 10 (now - last_ts) then
        let current := Z.max 0 (ally_freeze_charges s) in
        let s := with_ally_freeze_charges (Z.min 3 (current + 2)) s in
        let s := with_ally_freeze_initial_bonus_awarded true s in
        with_ally_freeze_last_bonus_ts (Some now) s
      else s
    else
      let elapsed := (now - last_ts)%Q in
      if Qle_bool 30 elapsed then
        let gained := whole_intervals elapsed 30 in
        let s := if bool_decide (0 < gained) then
                   let current := Z.max 0 (ally_freeze_charges s) in
                   with_ally_freeze_charges (Z.min 3 (current + gained)) s
                 else s in
        with_ally_freeze_last_bonus_ts (Some (last_ts + inject_Z (gained * 30))%Q) s
      else s
  end.

Definition _replenish_expand_charges (now : Q) (s : GameState) : GameState :=
  match ally_expand_last_bonus_ts s with
  | None => with_ally_expand_last_bonus_ts (Some now) s
  | Some last_ts =>
    if negb (ally_expand_initial_bonus_awarded s) then
      if Qle_bool 10 (now - last_ts) then
        let current := Z.max 0 (ally_expand_charges s) in
        let s := with_ally_expand_charges (Z.min 5 (current + 2)) s in
        let s := with_ally_expand_initial_bonus_awarded true s in
        with_ally_expand_last_bonus_ts (Some now) s
      else s
    else
      let elapsed := (now - last_ts)%Q in
      if Qle_bool 20 elapsed then
        let cycles := whole_intervals elapsed 20 in
        if bool_decide (0 < cycles) then
          let current := Z.max 0 (ally_expand_charges s) in
          let gained := cycles * 2 in
          let s := with_ally_expand_charges (Z.min 5 (current + gained)) s in
          with_ally_expand_last_bonus_ts (Some (last_ts + inject_Z (cycles * 20))%Q) s
        else s
      else s
  end.

Definition _replenish_dissolve_charges (now : Q) (s : GameState) : GameState :=
  match ally_dissolve_last_bonus_ts s with
  | None => with_ally_dissolve_last_bonus_ts (Some now) s
  | Some last_ts =>
    let interval := 15 in
    let cap := default 2 (ally_dissolve_max_charges s) in
    let elapsed := (now - last_ts)%Q in
    if Qle_bool (inject_Z interval) elapsed then
      let gained := whole_intervals elapsed (inject_Z interval) in
      let current := Z.max 0 (default 1 (ally_dissolve_charges s)) in
      let s := with_ally_dissolve_charges (Some (Z.min cap (current + gained))) s in
      with_ally_dissolve_last_bonus_ts (Some (last_ts + inject_Z (gained * interval))%Q) s
    else s
  end.

Definition _replenish_blink_charges (now : Q) (s : GameState) : GameState :=
  match ally_blink_last_bonus_ts s with
  | None => with_ally_blink_last_bonus_ts (Some now) s
  | Some last_ts =>
    let interval := 20 in
    let cap := 2 in
    let elapsed := (now - last_ts)%Q in
    if Qle_bool (inject_Z interval) elapsed then
      let gained := whole_intervals elapsed (inject_Z interval) in
      let current := Z.max 0 (ally_blink_charges s) in
      let s := with_ally_blink_charges (Z.min cap (current + gained)) s in
      with_ally_blink_last_bonus_ts (Some (last_ts + inject_Z (gained * interval))%Q) s
    else s
  end.

Definition _replenish_lift_charges (now : Q) (s : GameState) : GameState :=
  match ally_lift_last_bonus_ts s with
  | None => with_ally_lift_last_bonus_ts (Some now) s
  | Some last_ts =>
    if negb (ally_lift_initial_bonus_awarded s) then
      let elapsed := (now - last_ts)%Q in
      if Qle_bool 10 elapsed then
        let current := Z.max 0 (ally_lift_charges s) in
        let s := with_ally_lift_charges (Z.min 2 (current + 1)) s in
        let s := with_ally_lift_initial_bonus_awarded true s in
        with_ally_lift_last_bonus_ts (Some now) s
      else s
    else
      let elapsed := (now - last_ts)%Q in
      if Qle_bool 20 elapsed then
        let gained := whole_intervals elapsed 20 in
        if bool_decide (0 < gained) then
          let current := Z.max 0 (ally_lift_charges s) in
          let s := with_ally_lift_charges (Z.min 2 (current + gained)) s in
          with_ally_lift_last_bonus_ts (Some (last_ts + inject_Z (gained * 20))%Q) s
        else s
      else s
  end.

Definition _replenish_trap_charges (now : Q) (s : GameState) : GameState :=
  match ally_trap_last_bonus_ts s with
  | None => with_ally_trap_last_bonus_ts (Some now) s
  | Some last_ts =>
    let interval := 20 in
    let cap := 2 in
    let elapsed := (now - last_ts)%Q in
    if Qle_bool (inject_Z interval) elapsed then
      let gained := whole_intervals elapsed (inject_Z interval) in
      let current := Z.max 0 (ally_trap_charges s) in
      let s := with_ally_trap_charges (Z.min cap (current + gained)) s in
      with_ally_trap_last_bonus_ts (Some (last_ts + inject_Z (gained * interval))%Q) s
    else s
  end.

(** [if expires_at and expires_at <= now]: a zero timestamp is falsy. *)
Definition trap_expired (now : Q) (t : Trap) : bool :=
  negb (Qeq_bool (expires_at t) 0) && Qle_bool (expires_at t) now.

Definition _expire_traps (now : Q) (s : GameState) : GameState :=
  match traps s with
  | [] => s
  | ts => with_traps (filter (λ t, trap_expired now t = false) ts) s
  end.

(** [_expire_dissolved_nodes]; [w] and [h] are [maze.width] and
    [maze.height]. *)
Definition _expire_dissolved_nodes (w h : Z) (now : Q) (s : GameState) : GameState :=
  match dissolved_nodes s with
  | None => s
  | Some dissolved =>
    if bool_decide (dissolved = ∅) then s
    else
      let to_delete := dom (filter (λ kv, Qle_bool kv.2 now = true) dissolved) in
      let dissolved := filter (λ kv, Qle_bool kv.2 now = false) dissolved in
      let restored := filter (λ key, in_bounds w h key = true) to_delete in
      let s := with_dissolved_nodes (Some dissolved) s in
      with_active_decisions (active_decisions s ∪ restored) s
  end.

(** A [while cond: body] loop, unrolled at most [fuel] times. *)
Fixpoint while_loop {S : Type} (fuel : nat) (cond : S → bool) (body : S → S) (s : S) : S :=
  match fuel with
  | O => s
  | S fuel' => if cond s then while_loop fuel' cond body (body s) else s
  end.

(** Enough iterations for a loop that runs while
    [current_age >= last_age + threshold] and adds [threshold] to [last_age]. *)
Definition age_fuel (current_age last_age threshold : Z) : nat :=
  Z.to_nat ((current_age - last_age) / threshold).

Definition _grant_jump_bonus_if_needed (start_age : Z) (s : GameState) : GameState :=
  let expected_bonus := Z.max 0 ((age s - start_age) / 5) in
  let current_bonus := jump_bonus_awarded s in
  let bonus_delta := expected_bonus - current_bonus in
  if bool_decide (0 < bonus_delta) then
    let s := with_jump_charges (Z.max 0 (jump_charges s)) s in
    let s := with_jump_charges (jump_charges s + bonus_delta) s in
    with_jump_bonus_awarded expected_bonus s
  else s.

(** The loop state is the session state and the local [last_age]. *)
Definition _grant_escape_by_age (s : GameState) : GameState :=
  let last_age := hero_escape_last_age s in
  let current_age := age s in
  let '(s, last_age) :=
    while_loop (age_fuel current_age last_age 10)
      (λ st, bool_decide (st.2 + 10 ≤ current_age))
      (λ st, (with_hero_escape_charges (Z.max 0 (hero_escape_charges st.1) + 1) st.1,
              st.2 + 10))
      (s, last_age) in
  with_hero_escape_last_age last_age s.

Definition _grant_shield_bonus_if_needed (s : GameState) : GameState :=
  let last_age := default 0 (shield_last_age s) in
  let current_age := age s in
  let '(s, last_age) :=
    while_loop (age_fuel current_age last_age 20)
      (λ st, bool_decide (st.2 + 20 ≤ current_age))
      (λ st, (with_shield_charges
                (Some (Z.min 1 (Z.max 0 (default 0 (shield_charges st.1)) + 1))) st.1,
              st.2 + 20))
      (s, last_age) in
  with_shield_last_age (Some last_age) s.

(** ** controller.py: state synchronisation *)

Definition _sync_jump_charges_with_state (start_age : Z) (s : GameState) : GameState :=
  let s := with_jump_charges (Z.max 0 (jump_charges s)) s in
  _grant_jump_bonus_if_needed start_age s.

Definition _sync_trap_state (now : Q) (s : GameState) : GameState :=
  let s := if ally_trap_last_bonus_ts s is None
           then with_ally_trap_last_bonus_ts (Some now) s else s in
  _grant_shield_bonus_if_needed s.

Definition _sync_ally_state (now : Q) (s : GameState) : GameState :=
  let s := if ally_last_jump_bonus_ts s is None
           then with_ally_last_jump_bonus_ts (Some now) s else s in
  let s := _replenish_ally_jump_charges now s in
  _sync_trap_state now s.

Definition _sync_shield_state (now : Q) (s : GameState) : GameState :=
  let s := if shield_charges s is None then with_shield_charges (Some 1) s else s in
  let s := if shield_last_age s is None then with_shield_last_age (Some 0) s else s in
  let s := if shield_active_until s is None
           then with_shield_active_until (Some None) s else s in
  let s := with_shield_charges (Some (Z.max 1 (default 0 (shield_charges s)))) s in
  let s := match shield_active_until s with
           | Some (Some until) =>
             if negb (Qeq_bool until 0) && Qle_bool until now
             then with_shield_active_until (Some None) s else s
           | _ => s
           end in
  _grant_shield_bonus_if_needed s.

Definition _sync_blink_state (w : Z) (now : Q) (s : GameState) : GameState :=
  let s := if ally_blink_last_bonus_ts s is None
           then with_ally_blink_last_bonus_ts (Some now) s else s in
  match ally_position s with
  | None =>
    let '(hx, hy) := current_position s in
    with_ally_position (Some (Z.min (w - 1) (hx + 1), hy)) s
  | Some _ => s
  end.

Definition _sync_freeze_state (now : Q) (s : GameState) : GameState :=
  let s := if ally_freeze_last_bonus_ts s is None
           then with_ally_freeze_last_bonus_ts (Some now) s else s in
  _replenish_freeze_charges now s.

Definition _sync_expand_state (now : Q) (s : GameState) : GameState :=
  let s := if ally_expand_last_bonus_ts s is None
           then with_ally_expand_last_bonus_ts (Some now) s else s in
  _replenish_expand_charges now s.

Definition _sync_dissolve_state (w h : Z) (now : Q) (s : GameState) : GameState :=
  let s := if ally_dissolve_charges s is None
           then with_ally_dissolve_charges (Some 1) s else s in
  let s := if ally_dissolve_last_bonus_ts s is None
           then with_ally_dissolve_last_bonus_ts (Some now) s else s in
  let s := if ally_dissolve_max_charges s is None
           then with_ally_dissolve_max_charges (Some 2) s else s in
  let s := if dissolved_nodes s is None
           then with_dissolved_nodes (Some ∅) s else s in
  let s := _expire_dissolved_nodes w h now s in
  _replenish_dissolve_charges now s.

Definition _sync_escape_state (s : GameState) : GameState := _grant_escape_by_age s.

(** The passes that [get_state_payload] runs before it reports: [w] and [h]
    are [maze.width] and [maze.height]. *)
Definition payload_passes (w h : Z) (now : Q) (s : GameState) : GameState :=
  let s := _replenish_ally_jump_charges now s in
  let s := _replenish_freeze_charges now s in
  let s := _replenish_expand_charges now s in
  let s := _replenish_lift_charges now s in
  let s := _replenish_dissolve_charges now s in
  let s := _expire_dissolved_nodes w h now s in
  let s := _replenish_trap_charges now s in
  let s := _expire_traps now s in
  _sync_shield_state now s.

Section ActiveDecisions.
Context `{RandomSource}.

(** [_init_active_decisions]: the new state and the generator after the
    shuffle. *)
Definition _init_active_decisions (m : Maze) (s : GameState) (g : rng)
    : GameState * rng :=
  let candidates :=
    (λ cell, (cell_x cell, cell_y cell)) <$>
      filter (λ cell, (cell_x cell, cell_y cell) ∉ visited_nodes s) (concat (grid m)) in
  let '(candidates, g) := shuffle candidates g in
  let count := Nat.min 8 (length candidates) in
  (with_active_decisions (list_to_set (take count candidates)) s, g).
End ActiveDecisions.

(** ** controller.py: the controller object *)

(** Exceptions that leave an entry point. *)
Inductive Exn :=
  | ValueError (msg : string)
  | AttributeError (msg : string)
  | IndexError
  | ValidationError
  | ProviderError (msg : string).

Record Settings := mkSettings {
  start_age : Z;
  goal_age : Z;
  maze_width : Z;
  maze_height : Z }.

(** The content provider and the scenario file are collaborators outside
    the session core.  A provider has a state of its own and may draw from
    the global generator; any of its calls may fail. *)
Class Collaborators `{RandomSource} := {
  provider : Type;
  ai_get_question :
    Z → string → list string → provider → rng → (Exn + Question) * provider * rng;
  ai_review :
    Z → Question → Answer → provider → rng → (Exn + Review) * provider * rng;
  ai_score_values :
    Z → Question → Answer → provider → rng
    → (Exn + option ValueDimensions) * provider * rng;
  ai_feedback_voices :
    Z → Question → Answer → provider → rng
    → (Exn + option (gmap string string)) * provider * rng;
  (** [scenario_store.pick_for_stage]. *)
  pick_for_stage : string → list Question;
}.

(** [str.lower()] on ASCII text. *)
Definition lower_ascii (a : Ascii.ascii) : Ascii.ascii :=
  let n := Ascii.nat_of_ascii a in
  if bool_decide (65 ≤ n ≤ 90)%nat then Ascii.ascii_of_nat (n + 32) else a.

Fixpoint lower (s : string) : string :=
  match s with
  | EmptyString => EmptyString
  | String a s' => String (lower_ascii a) (lower s')
  end.

(** Membership of a key in [DIR_TO_DELTA]. *)
Definition direction_of_string (s : string) : option Direction :=
  if bool_decide (s = "north") then Some north
  else if bool_decide (s = "south") then Some south
  else if bool_decide (s = "east") then Some east
  else if bool_decide (s = "west") then Some west
  else None.

Definition _direction_from_delta (dx dy : Z) : Direction :=
  if bool_decide (dx = 1) then east
  else if bool_decide (dx = -1) then west
  else if bool_decide (dy = 1) then south
  else north.

(** [wall_grid[px][py] = v]. *)
Definition wall_grid_set (px py : Z) (v : bool) (wg : list (list bool)) : list (list bool) :=
  alter (λ col, <[Z.to_nat py := v]> col) (Z.to_nat px) wg.

(** [_build_wall_grid]; [None] is the [IndexError] of [maze.grid[y][x]]. *)
Definition _build_wall_grid (m : Maze) : option (list (list bool) * (Z * Z)) :=
  let grid_w := width m * 2 + 1 in
  let grid_h := height m * 2 + 1 in
  let wall_grid := replicate (Z.to_nat grid_w) (replicate (Z.to_nat grid_h) true) in
  wall_grid ← foldl (λ acc p,
      wg ← acc;
      cell ← grid_get (grid m) p;
      let px := 2 * p.1 + 1 in
      let py := 2 * p.2 + 1 in
      let wg := wall_grid_set px py false wg in
      let wg := if wall_get (walls cell) north then wg else wall_grid_set px (py - 1) false wg in
      let wg := if wall_get (walls cell) south then wg else wall_grid_set px (py + 1) false wg in
      let wg := if wall_get (walls cell) west then wg else wall_grid_set (px - 1) py false wg in
      let wg := if wall_get (walls cell) east then wg else wall_grid_set (px + 1) py false wg in
      Some wg) (Some wall_grid) (coords (width m) (height m));
  Some (wall_grid, (grid_w, grid_h)).

(** A wall mutation request: [{x, y, direction, action}]. *)
Record WallMutation := mkWallMutation {
  mutation_x : Z;
  mutation_y : Z;
  mutation_direction : string;
  mutation_action : string }.

(** [_apply_wall_mutation]: the maze after the mutation and the returned
    flag. *)
Definition _apply_wall_mutation (mutation : WallMutation) (m : Maze) : Maze * bool :=
  let p := (mutation_x mutation, mutation_y mutation) in
  let action := mutation_action mutation in
  match direction_of_string (mutation_direction mutation) with
  | None => (m, false)
  | Some direction =>
    if negb (bool_decide (action = "open") || bool_decide (action = "close")) then (m, false)
    else
      match get_cell m p with
      | None => (m, false)
      | Some cell =>
        let target_state := bool_decide (action = "close") in
        let current_state := wall_get (walls cell) direction in
        if bool_decide (current_state = target_state) then (m, false)
        else
          let m := with_grid m (grid_alter (set_wall direction target_state) p (grid m)) in
          let n := step_from p direction in
          let m := match get_cell m n with
                   | Some _ =>
                     with_grid m (grid_alter (set_wall (opposite direction) target_state) n (grid m))
                   | None => m
                   end in
          (m, true)
      end
  end.

(** What [_apply_trap_trigger] reports. *)
Record TrapEvent := mkTrapEvent {
  event_type : string;
  event_effect : string;
  event_amount : Z;
  event_hero_health : Z;
  event_shield_active : bool }.

(** The part of the HUD payload that the claims speak about. *)
Record StatePayload := mkStatePayload {
  payload_age : Z;
  payload_hero_health : Z;
  payload_shield_charges : Z;
  payload_current_position : Z * Z;
  payload_ally_position : option (Z * Z);
  payload_active_decisions : gset (Z * Z);
  payload_jump_charges : Z;
  payload_ally_jump_charges : Z }.

(** What an entry point returns on success. *)
Inductive Reply :=
  | ReplyState (p : StatePayload)
  | ReplyNone
  | ReplyTrap (remaining_charges : Z)
  | ReplyMove (decision_required decision_node visited_before : bool)
      (trap_event : option TrapEvent)
  | ReplyApplied (applied : bool)
  | ReplyJump (position : Z * Z) (jump_distance remaining_charges : Z)
      (decision_required decision_node visited_before : bool) (p : StatePayload)
  | ReplyPosition (position : Z * Z) (p : StatePayload)
  | ReplyQuestion (q : Question)
  | ReplyLift (remaining_charges : Z)
  | ReplyThrow (position : Z * Z)
      (decision_required decision_node visited_before hero_dead : bool)
      (health : Z) (p : StatePayload)
  | ReplyDissolve (remaining_charges : Z) (restore_at : Q) (p : StatePayload)
  | ReplySubmit (r : Review) (delta : ValueDimensions) (voices : gmap string string)
      (p : StatePayload) (game_complete : bool)
  | ReplyFreeze (health damage : Z)
  | ReplyEscape (remaining_charges : Z) (position : Z * Z)
  | ReplyShield (remaining_charges : Z) (active_until : Q)
  | ReplyBlink (position : Z * Z) (remaining_charges : Z).

(** How an entry point ends: it raises, it returns a structured rejection
    ([{"valid": False, "reason": ...}] and the like), or it returns its
    result. *)
Inductive Outcome :=
  | Raised (e : Exn)
  | Rejected (reason : string)
  | Returned (r : Reply).

Section Controller.
Context `{Collaborators}.

(** [GameController]: its attributes, the state of the global generator,
    and the record of what [save.save_now] was asked to write (the oldest
    call first; [None] stands for a call whose snapshot could not be
    built, which [save_now] catches and logs). *)
Record Controller := mkController {
  settings : Settings;
  state : GameState;
  maze : Maze;
  ai_provider : provider;
  _active_questions : gmap string Question;
  _wall_grid : list (list bool);
  _grid_size : Z * Z;
  random_state : rng;
  save_log : list (option SaveData) }.

Definition eta_Controller (c : Controller) : Controller :=
  mkController (settings c) (state c) (maze c) (ai_provider c)
    (_active_questions c) (_wall_grid c) (_grid_size c) (random_state c)
    (save_log c).

Definition with_state : GameState → Controller → Controller :=
  ltac:(setter eta_Controller state).
Definition with_maze : Maze → Controller → Controller :=
  ltac:(setter eta_Controller maze).
Definition with_ai_provider : provider → Controller → Controller :=
  ltac:(setter eta_Controller ai_provider).
Definition with_active_questions : gmap string Question → Controller → Controller :=
  ltac:(setter eta_Controller _active_questions).
Definition with_wall_grid : list (list bool) → Controller → Controller :=
  ltac:(setter eta_Controller _wall_grid).
Definition with_grid_size : Z * Z → Controller → Controller :=
  ltac:(setter eta_Controller _grid_size).
Definition with_random_state : rng → Controller → Controller :=
  ltac:(setter eta_Controller random_state).
Definition with_save_log : list (option SaveData) → Controller → Controller :=
  ltac:(setter eta_Controller save_log).

(** Run a pass of the session state inside the controller. *)
Definition on_state (f : GameState → GameState) (c : Controller) : Controller :=
  with_state (f (state c)) c.

(** [save.save_now(self.state, self.settings.save_path)]. *)
Definition save_now (c : Controller) : Controller :=
  with_save_log (save_log c ++ [to_save_data (state c)]) c.

Definition state_payload (c : Controller) : StatePayload :=
  let s := state c in
  mkStatePayload (age s) (hero_health s) (default 0 (shield_charges s))
    (current_position s) (ally_position s) (active_decisions s)
    (jump_charges s) (ally_jump_charges s).

(** [get_state_payload]: the passes it runs, which all act on
    [self.state], then the payload. *)
Definition get_state_payload (now : Q) (c : Controller) : Controller * StatePayload :=
let c := on_state (payload_passes (width (maze c)) (height (maze c)) now) c in
(c, state_payload c).

(** [GameController.__init__]; [g] is the state of the global generator. *)
Definition GameController_init (settings : Settings) (state : GameState)
    (maze : Maze) (ai_provider : provider) (g : rng) (now : Q)
    : Exn + Controller :=
  let w := width maze in
  let h := height maze in
  let '(state, g) :=
    if bool_decide (active_decisions state = ∅)
    then _init_active_decisions maze state g else (state, g) in
  match _build_wall_grid maze with
  | None => inl IndexError
  | Some (wall_grid, grid_size) =>
    let s := state in
    let s := _sync_jump_charges_with_state (start_age settings) s in
    let s := _sync_ally_state now s in
    let s := _sync_freeze_state now s in
    let s := _sync_expand_state now s in
    let s := _replenish_lift_charges now s in
    let s := _replenish_lift_charges now s in
    let s := _sync_dissolve_state w h now s in
    let s := _replenish_dissolve_charges now s in
    let s := _expire_dissolved_nodes w h now s in
    let s := _sync_trap_state now s in
    let s := _replenish_trap_charges now s in
    let s := _expire_traps now s in
    let s := _sync_blink_state w now s in
    let s := _replenish_blink_charges now s in
    let s := _sync_escape_state s in
    let s := _sync_shield_state now s in
    inr (mkController settings s maze ai_provider ∅ wall_grid grid_size g [])
  end.

Definition Qlt_bool (a b : Q) : bool := negb (Qle_bool b a).

(** [abs(dx) + abs(dy)]. *)
Definition manhattan (dx dy : Z) : Z := Z.abs dx + Z.abs dy.

(** The hero lands on [target]: is it an active decision, and is this the
    first visit?  Shared by [move_player], [jump_player] and
    [throw_lift]. *)
Definition land_on (target : Z * Z) (c : Controller) : Controller * bool * bool :=
  let decision_required := bool_decide (target ∈ active_decisions (state c)) in
  if decision_required then
    let '(s, first_visit) := mark_node_visited target (state c) in
    (with_state s c, decision_required, first_visit)
  else (c, decision_required, false).

Definition _apply_trap_trigger (p : Z * Z) (now : Q) (c : Controller)
    : Controller * option TrapEvent :=
  let traps := traps (state c) in
  match list_find (λ t, trap_x t = p.1 ∧ trap_y t = p.2) traps with
  | None => (c, None)
  | Some (hit_index, trap) =>
    let c := on_state (with_traps (delete hit_index traps)) c in
    let '(roll, g) := random_unit (random_state c) in
    let c := with_random_state g c in
    let damage_main := bool_decide (trap_type trap = "mine") in
    let heal_main := bool_decide (trap_type trap = "medkit") in
    let damage := (damage_main && Qlt_bool roll (8 # 10))
                  || (heal_main && Qle_bool (8 # 10) roll) in
    let amount := if damage then 30 else 20 in
    let shield_active :=
      match shield_active_until (state c) with
      | Some (Some active_until) =>
        negb (Qeq_bool active_until 0) && Qlt_bool now active_until
      | _ => false
      end in
    let current := hero_health (state c) in
    let c :=
      if shield_active then c
      else
        let current := if damage then Z.max 0 (current - amount)
                       else Z.min 100 (current + amount) in
        let c := on_state (with_hero_health current) c in
        if bool_decide (current ≤ 0) then on_state (with_hero_health 0) c else c in
    (c, Some (mkTrapEvent (trap_type trap) (if damage then "damage" else "heal")
                amount (hero_health (state c)) shield_active))
  end.

Definition place_trap (trap_type : string) (x y : Z) (now : Q) (c : Controller)
    : Controller * Outcome :=
  let trap_type := lower trap_type in
  if negb (bool_decide (trap_type = "mine") || bool_decide (trap_type = "medkit"))
  then (c, Raised (ValueError "invalid trap type"))
  else
    let c := on_state (_replenish_trap_charges now) c in
    let charges := ally_trap_charges (state c) in
    if bool_decide (charges ≤ 0) then (c, Raised (ValueError "No trap charges left"))
    else if negb (in_bounds (width (maze c)) (height (maze c)) (x, y))
    then (c, Raised (ValueError "Out of bounds"))
    else
      let traps := filter (λ t, ¬ (trap_x t = x ∧ trap_y t = y)) (traps (state c)) in
      let trap := mkTrap trap_type x y now (now + 30)%Q (now + 60)%Q in
      let c := on_state (with_traps (traps ++ [trap])) c in
      let c := on_state (with_ally_trap_charges (charges - 1)) c in
      let c := on_state (with_ally_trap_last_bonus_ts (Some now)) c in
      let c := save_now c in
      (c, Returned (ReplyTrap (ally_trap_charges (state c)))).

Definition move_player (target_x target_y : Z) (now : Q) (c : Controller)
    : Controller * Outcome :=
  let c := on_state (_expire_traps now) c in
  let '(current_x, current_y) := current_position (state c) in
  let dx := target_x - current_x in
  let dy := target_y - current_y in
  if negb (bool_decide (manhattan dx dy = 1)) then (c, Rejected "invalid_step")
  else
    let direction := _direction_from_delta dx dy in
    match get_cell (maze c) (current_x, current_y), get_cell (maze c) (target_x, target_y) with
    | Some current_cell, Some next_cell =>
      if negb (can_move current_cell direction) then (c, Rejected "blocked")
      else
        let c := on_state (with_current_position (target_x, target_y)) c in
        let '(c, decision_required, first_visit) := land_on (target_x, target_y) c in
        let '(c, trap_event) := _apply_trap_trigger (target_x, target_y) now c in
        (c, Returned (ReplyMove (decision_required && first_visit) decision_required
                        (if decision_required then negb first_visit else false)
                        trap_event))
    | _, _ => (c, Rejected "out_of_bounds")
    end.

Definition apply_wall_mutations (mutations : list WallMutation) (c : Controller)
    : Controller * Outcome :=
  match mutations with
  | [] => (c, Returned (ReplyApplied false))
  | _ =>
    let '(m, applied) :=
      foldl (λ acc mutation,
               let '(m, changed) := _apply_wall_mutation mutation acc.1 in
               (m, if changed then true else acc.2))
            (maze c, false) mutations in
    let c := with_maze m c in
    if applied then
      match _build_wall_grid m with
      | Some (wall_grid, grid_size) =>
        (with_grid_size grid_size (with_wall_grid wall_grid c),
         Returned (ReplyApplied applied))
      | None => (c, Raised IndexError)
      end
    else (c, Returned (ReplyApplied applied))
  end.

Definition jump_player (direction : string) (now : Q) (c : Controller)
    : Controller * Outcome :=
  if bool_decide (direction = "") then (c, Rejected "invalid_direction")
  else
    match direction_of_string (lower direction) with
    | None => (c, Rejected "invalid_direction")
    | Some d =>
      let charges := jump_charges (state c) in
      if bool_decide (charges ≤ 0) then (c, Rejected "no_charges")
      else
        let '(dx, dy) := DIR_TO_DELTA d in
        let '(current_x, current_y) := current_position (state c) in
        let candidates :=
          filter (λ t, in_bounds (width (maze c)) (height (maze c)) t.1 = true
                       ∧ is_Some (get_cell (maze c) t.1))
                 ((λ distance, ((current_x + dx * distance, current_y + dy * distance),
                                distance)) <$> [2; 3]) in
        match choice candidates (random_state c) with
        | None => (c, Rejected "no_destination")
        | Some ((target, distance), g) =>
          let c := with_random_state g c in
          match get_cell (maze c) target with
          | None => (c, Rejected "invalid_target")
          | Some target_cell =>
            let c := on_state (with_current_position target) c in
            let c := on_state (λ s, with_jump_charges (Z.max 0 (jump_charges s - 1)) s) c in
            let '(c, decision_required, first_visit) := land_on target c in
            let c := save_now c in
            let remaining_charges := jump_charges (state c) in
            let '(c, p) := get_state_payload now c in
            (c, Returned (ReplyJump target distance remaining_charges
                            (decision_required && first_visit) decision_required
                            (if decision_required then negb first_visit else false) p))
          end
        end
    end.

Definition sync_position (target_x target_y : Z) (now : Q) (c : Controller)
    : Controller * Outcome :=
  if negb (in_bounds (width (maze c)) (height (maze c)) (target_x, target_y))
  then (c, Raised (ValueError "out_of_bounds"))
  else
    let c := on_state (with_current_position (target_x, target_y)) c in
    let c := save_now c in
    let '(c, p) := get_state_payload now c in
    (c, Returned (ReplyPosition (target_x, target_y) p)).

(** The local scenario that replaces a failed provider call. *)
Definition local_question (current_stage : string) (g : rng) : option (Question * rng) :=
  match pick_for_stage current_stage with
  | [] =>
    let '(n, g) := randint 1000 9999 g in
    Some (mkQuestion ("local_" +:+ current_stage +:+ "_" +:+ pretty n)
            "A friend asks you to break a rule to help them. What do you do?"
            ["Refuse"; "Accept"; "Seek help"] (1 # 2)
            (Some ["responsibility"; "integrity"]), g)
  | scenario_list =>
    '(chosen, g) ← choice scenario_list g;
    Some (mkQuestion (question_ident chosen) (prompt chosen) (options chosen)
            (difficulty chosen) (Some (default [] (tags chosen))), g)
  end.

Definition start_decision (x y : Z) (c : Controller) : Controller * Outcome :=
  if negb (bool_decide ((x, y) ∈ active_decisions (state c)))
  then (c, Raised (ValueError "Current position is not an active decision node"))
  else
    let c := on_state (λ s, with_active_decisions (active_decisions s ∖ {[(x, y)]}) s) c in
    let current_age := age (state c) in
    let current_stage := stage (state c) in
    let history_tags := get_history_tags (state c) in
    let '(res, pv, g) :=
      ai_get_question current_age current_stage history_tags
        (ai_provider c) (random_state c) in
    let c := with_random_state g (with_ai_provider pv c) in
    let fallback :=
      match res with
      | inr question => Some (question, random_state c)
      | inl _ => local_question current_stage (random_state c)
      end in
    match fallback with
    | None => (c, Raised IndexError)
    | Some (question, g) =>
      let c := with_random_state g c in
      let c := with_active_questions (<[question_ident question := question]> (_active_questions c)) c in
      (c, Returned (ReplyQuestion question))
    end.

Definition start_lift (hero ally : Z * Z) (now : Q) (c : Controller)
    : Controller * Outcome :=
  let c := on_state (_replenish_lift_charges now) c in
  let charges := ally_lift_charges (state c) in
  if bool_decide (charges ≤ 0) then (c, Raised (ValueError "No lift charges left"))
  else
    let dx := hero.1 - ally.1 in
    let dy := hero.2 - ally.2 in
    if negb (bool_decide ((dy = 0 ∧ Z.abs dx ≤ 2) ∨ (dx = 0 ∧ Z.abs dy ≤ 2)))
    then (c, Raised (ValueError "Out of reach – ally boost whiffs"))
    else
      let c := on_state (with_ally_lift_charges (Z.max 0 (charges - 1))) c in
      let c := on_state (with_ally_lift_last_bonus_ts (Some now)) c in
      let c := save_now c in
      (c, Returned (ReplyLift (ally_lift_charges (state c)))).

Definition throw_lift (ally : Z * Z) (direction : string) (now : Q) (c : Controller)
    : Controller * Outcome :=
  match direction_of_string (lower direction) with
  | None => (c, Raised (ValueError "Invalid direction"))
  | Some d =>
    let '(dx, dy) := DIR_TO_DELTA d in
    match choice [2; 3] (random_state c) with
    | None => (c, Raised IndexError)
    | Some (dist, g) =>
      let c := with_random_state g c in
      let target := (ally.1 + dx * dist, ally.2 + dy * dist) in
      let target_cell :=
        if in_bounds (width (maze c)) (height (maze c)) target
        then get_cell (maze c) target else None in
      let '(c, decision_required, first_visit, hero_dead) :=
        match target_cell with
        | Some _ =>
          let c := on_state (with_current_position target) c in
          let '(c, decision_required, first_visit) := land_on target c in
          let c := if decision_required
                   then on_state (λ s, with_active_decisions
                                         (active_decisions s ∖ {[target]}) s) c
                   else c in
          (c, decision_required, first_visit, false)
        | None =>
          let c := on_state (with_current_position target) c in
          let c := on_state (with_hero_health 0) c in
          (c, false, false, true)
        end in
      let c := save_now c in
      let health := hero_health (state c) in
      let '(c, p) := get_state_payload now c in
      (c, Returned (ReplyThrow target (decision_required && first_visit)
                      decision_required
                      (if decision_required then negb first_visit else false)
                      hero_dead health p))
    end
  end.

Definition dissolve_node (x y : Z) (now : Q) (c : Controller) : Controller * Outcome :=
  let c := on_state (_replenish_dissolve_charges now) c in
  let charges := default 0 (ally_dissolve_charges (state c)) in
  if bool_decide (charges ≤ 0) then (c, Raised (ValueError "No dissolve charges left"))
  else if negb (bool_decide ((x, y) ∈ active_decisions (state c)))
  then (* [self.state.decision_nodes] does not exist *)
    (c, Raised (AttributeError "decision_nodes"))
  else
    let restore_at := (now + 15)%Q in
    let dissolved := default ∅ (dissolved_nodes (state c)) in
    let dissolved := <[(x, y) := restore_at]> dissolved in
    let c := on_state (with_dissolved_nodes (Some dissolved)) c in
    let c := on_state (with_ally_dissolve_charges (Some (charges - 1))) c in
    let c := on_state (with_ally_dissolve_last_bonus_ts (Some now)) c in
    let c := on_state (λ s, with_active_decisions (active_decisions s ∖ {[(x, y)]}) s) c in
    let c := save_now c in
    let remaining_charges := default 0 (ally_dissolve_charges (state c)) in
    let '(c, p) := get_state_payload now c in
    (c, Returned (ReplyDissolve remaining_charges restore_at p)).

Definition _build_value_delta (question : Question) (review : Review) : ValueDimensions :=
  let base := Z.max (-2) (Z.min 2 (growth_delta review)) in
  let tags := lower <$> default [] (tags question) in
  let bump (flag : bool) : Z :=
    if bool_decide (0 < base) && flag then Z.min 2 base
    else if bool_decide (base < 0) && flag then Z.max (-2) base
    else 0 in
  let vd := mkValueDimensions
              (bump (bool_decide ("empathy" ∈ tags)))
              (bump (bool_decide ("integrity" ∈ tags)))
              (bump (bool_decide ("courage" ∈ tags)))
              (bump (bool_decide ("responsibility" ∈ tags)))
              (bump (bool_decide ("independence" ∈ tags))) in
  if bool_decide (empathy vd = 0 ∧ integrity vd = 0 ∧ courage vd = 0
                  ∧ responsibility vd = 0 ∧ independence vd = 0)
  then mkValueDimensions (empathy vd) (integrity vd) (courage vd) base (independence vd)
  else vd.

(** The format [{n:+}]. *)
Definition signed (n : Z) : string :=
  if bool_decide (0 ≤ n) then "+" +:+ pretty n else pretty n.

Definition _build_voices (question : Question) (answer : Answer)
    (value_delta : ValueDimensions) : gmap string string :=
  let choice_text :=
    match choice_id answer, options question with
    | Some i, _ :: _ =>
      if bool_decide (0 ≤ i < Z.of_nat (length (options question)))
      then options question !! Z.to_nat i else None
    | _, _ => None
    end in
  let truthy (t : option string) :=
    match t with Some "" => None | _ => t end in
  let ans := default "your move"
               (match truthy (free_text answer) with
                | Some t => Some t
                | None => truthy choice_text
                end) in
  let delta_summary :=
    "E" +:+ signed (empathy value_delta) +:+ " I" +:+ signed (integrity value_delta)
    +:+ " Cg" +:+ signed (courage value_delta) +:+ " R"
    +:+ signed (responsibility value_delta) +:+ " In"
    +:+ signed (independence value_delta) in
  {[ "parents" := "We see you chose " +:+ ans
        +:+ ". Hold to your principles and care for others—grow with grace. ["
        +:+ delta_summary +:+ "]";
     "friend" := "Bold pick! Let’s keep it real and kind. We’ve got your back. ["
        +:+ delta_summary +:+ "]";
     "future_self" :=
        "This step shapes who you become—balance heart and spine. Keep learning. ["
        +:+ delta_summary +:+ "]" ]}.

Definition _build_default_voices (age : Z) (question : Question) (answer : Answer)
    (value_delta : ValueDimensions) : gmap string string :=
  let base := _build_voices question answer value_delta in
  if bool_decide (age < 60) then base
  else {[ "child" := default "" (base !! "parents");
          "friend" := default "" (base !! "friend");
          "past_self" := default "" (base !! "future_self") ]}.

(** [d.setdefault(k, v)]. *)
Definition setdefault (k v : string) (d : gmap string string) : gmap string string :=
  match d !! k with Some _ => d | None => <[k := v]> d end.

Definition _normalize_voices (age : Z) (provider_voices : option (gmap string string))
    (default_voices : gmap string string) : gmap string string :=
  let normalized := default ∅ provider_voices in
  let role (k : string) := default "" (normalized !! k) in
  let normalized :=
    if bool_decide (is_Some (normalized !! "role1") ∨ is_Some (normalized !! "role2")
                    ∨ is_Some (normalized !! "role3")) then
      let r1 := role "role1" in
      let r2 := role "role2" in
      let r3 := role "role3" in
      if bool_decide (age < 60) then
        setdefault "future_self" r3 (setdefault "friend" r2 (setdefault "parents" r1 normalized))
      else
        setdefault "past_self" r3 (setdefault "friend" r2 (setdefault "child" r1 normalized))
    else normalized in
  let required :=
    if bool_decide (age < 60) then ["parents"; "friend"; "future_self"]
    else ["child"; "friend"; "past_self"] in
  foldl (λ normalized key,
           match normalized !! key with
           | Some t => if bool_decide (t = "")
                       then <[key := default "" (default_voices !! key)]> normalized
                       else normalized
           | None => <[key := default "" (default_voices !! key)]> normalized
           end) normalized required.

Definition submit_decision (question_id : string) (choice_id : option Z)
    (free_text : option string) (now : Q) (c : Controller) : Controller * Outcome :=
  let answer := mkAnswer choice_id free_text in
  if is_empty answer then (c, Raised (ValueError "Missing decision answer"))
  else
    match _active_questions c !! question_id with
    | None => (c, Raised (ValueError "Question not found; please re-trigger decision."))
    | Some question =>
      let current_age := age (state c) in
      let '(res, pv, g) := ai_review current_age question answer
                             (ai_provider c) (random_state c) in
      let c := with_random_state g (with_ai_provider pv c) in
      match res with
      | inl e => (c, Raised e)
      | inr review =>
      let '(res, pv, g) := ai_score_values current_age question answer
                             (ai_provider c) (random_state c) in
      let c := with_random_state g (with_ai_provider pv c) in
      match res with
      | inl e => (c, Raised e)
      | inr provider_values =>
      let '(res, pv, g) := ai_feedback_voices current_age question answer
                             (ai_provider c) (random_state c) in
      let c := with_random_state g (with_ai_provider pv c) in
      match res with
      | inl e => (c, Raised e)
      | inr provider_voices =>
        let stored_question := default question (_active_questions c !! question_id) in
        let c := with_active_questions (delete question_id (_active_questions c)) c in
        let record := mkDecisionRecord stored_question answer review
                        (age (state c)) (stage (state c)) in
        let c := on_state (append_decision record) c in
        let c := on_state (apply_growth (growth_delta review)) c in
        let value_delta :=
          default (_build_value_delta stored_question review) provider_values in
        match apply_value_delta value_delta (state c) with
        | None => (c, Raised ValidationError)
        | Some s =>
          let c := with_state s c in
          let default_voices :=
            _build_default_voices current_age stored_question answer value_delta in
          let voices := _normalize_voices current_age provider_voices default_voices in
          let growth_rec :=
            mkGrowthRecord (question_ident stored_question) (prompt stored_question)
              (age (state c)) (stage (state c)) value_delta voices None in
          let c := on_state (append_growth_record growth_rec) c in
          let c := on_state (_grant_jump_bonus_if_needed (start_age (settings c))) c in
          let c := on_state _grant_escape_by_age c in
          let c := on_state _grant_shield_bonus_if_needed c in
          let c := save_now c in
          let '(c, p) := get_state_payload now c in
          (c, Returned (ReplySubmit review value_delta voices p
                          (is_goal_reached (goal_age (settings c)) (state c))))
        end
      end end end
    end.

(** [round(x)]: to the nearest integer, ties to the even one. *)
Definition py_round (x : Q) : Z :=
  let f := Qfloor x in
  let r := (x - inject_Z f)%Q in
  if Qlt_bool r (1 # 2) then f
  else if Qlt_bool (1 # 2) r then f + 1
  else if Z.even f then f else f + 1.

Definition apply_freeze_hit (damage_percent : option Q) (now : Q) (c : Controller)
    : Controller * Outcome :=
  let c := on_state (_sync_trap_state now) c in
  let percent := match damage_percent with
                 | None => 5%Q
                 | Some p => if Qle_bool 0 p then p else 0%Q
                 end in
  let damage := Z.max 1 (py_round (100 * (percent / 100))%Q) in
  let current := hero_health (state c) in
  let new_health := Z.max 0 (current - damage) in
  let c := on_state (with_hero_health new_health) c in
  let c := save_now c in
  (c, Returned (ReplyFreeze new_health damage)).

Definition escape_hero (x y : option Z) (c : Controller) : Controller * Outcome :=
  let c := on_state _grant_escape_by_age c in
  let charges := hero_escape_charges (state c) in
  if bool_decide (charges ≤ 0) then (c, Raised (ValueError "No escape charges"))
  else
    let c := on_state (with_hero_escape_charges (charges - 1)) c in
    let c := match x, y with
             | Some x, Some y =>
               if in_bounds (width (maze c)) (height (maze c)) (x, y)
               then on_state (with_current_position (x, y)) c else c
             | _, _ => c
             end in
    let c := save_now c in
    (c, Returned (ReplyEscape (hero_escape_charges (state c))
                    (current_position (state c)))).

Definition activate_shield (now : Q) (c : Controller) : Controller * Outcome :=
  let c := on_state _grant_shield_bonus_if_needed c in
  let charges := default 0 (shield_charges (state c)) in
  if bool_decide (charges ≤ 0) then (c, Raised (ValueError "No shield charges"))
  else
    let duration := 10%Q in
    let c := on_state (with_shield_charges (Some (charges - 1))) c in
    let c := on_state (with_shield_active_until (Some (Some (now + duration)%Q))) c in
    let c := save_now c in
    (c, Returned (ReplyShield (charges - 1) (now + duration)%Q)).

Definition blink_ally (now : Q) (c : Controller) : Controller * Outcome :=
  let c := on_state (_replenish_blink_charges now) c in
  let charges := ally_blink_charges (state c) in
  if bool_decide (charges ≤ 0) then (c, Raised (ValueError "No blink charges left"))
  else
    let '(hx, hy) := current_position (state c) in
    let offsets := dx ← seqZ (-3) 7; dy ← seqZ (-3) 7; [(dx, dy)] in
    let candidates :=
      filter (λ t, in_bounds (width (maze c)) (height (maze c)) t = true
                   ∧ is_Some (get_cell (maze c) t))
        ((λ d, (hx + d.1, hy + d.2)) <$>
           filter (λ d, ¬ (manhattan d.1 d.2 = 0 ∨ 3 < manhattan d.1 d.2)) offsets) in
    match choice candidates (random_state c) with
    | None => (c, Raised (ValueError "No valid blink target"))
    | Some (target, g) =>
      let c := with_random_state g c in
      let c := on_state (with_ally_position (Some target)) c in
      let c := on_state (with_ally_blink_charges (charges - 1)) c in
      let c := on_state (with_ally_blink_last_bonus_ts (Some now)) c in
      let c := save_now c in
      (c, Returned (ReplyBlink target (ally_blink_charges (state c))))
    end.

Definition set_active_decisions (coords : list (Z * Z)) (c : Controller)
    : Controller * Outcome :=
  let filtered := filter (λ p, in_bounds (width (maze c)) (height (maze c)) p = true) coords in
  let c := on_state (with_active_decisions (list_to_set filtered)) c in
  let c := save_now c in
  (c, Returned ReplyNone).

Definition restart_game (now : Q) (c : Controller) : Controller * Outcome :=
let new_state := GameState_init None now in
let new_state := with_age (start_age (settings c)) new_state in
let new_state := with_stage (compute_stage_by_age (age new_state)) new_state in
let '(new_seed, g) := randint 1 999999 (random_state c) in
match generate_maze (maze_width (settings c)) (maze_height (settings c))
        (Some new_seed) g with
| None =>
  (* [generate_maze] raised after it had reseeded the generator *)
  (with_random_state (rng_seed new_seed) c, Raised IndexError)
| Some (m, g) =>
  let new_state := with_state_seed (seed m) new_state in
  let new_state := with_current_position (start_pos m) new_state in
  let new_state :=
    with_ally_position
      (Some (Z.min (width m - 1) ((start_pos m).1 + 1), (start_pos m).2)) new_state in
  let c := with_state new_state (with_random_state g (with_maze m c)) in
  match _build_wall_grid m with
  | None => (c, Raised IndexError)
  | Some (wall_grid, grid_size) =>
    let c := with_grid_size grid_size (with_wall_grid wall_grid c) in
    let s := _sync_jump_charges_with_state (start_age (settings c)) new_state in
    let s := _sync_ally_state now s in
    let s := _sync_freeze_state now s in
    let s := _sync_expand_state now s in
    let s := _replenish_lift_charges now s in
    let s := _sync_escape_state s in
    let '(s, g) := _init_active_decisions m s g in
    let c := with_random_state g (with_state s c) in
    let c := save_now c in
    let '(c, p) := get_state_payload now c in
    (c, Returned (ReplyState p))
  end
end.

(** The operation surface of the controller. *)
Inductive Op :=
  | OpGetState
  | OpRestart
  | OpPlaceTrap (trap_type : string) (x y : Z)
  | OpMove (x y : Z)
  | OpWallMutations (mutations : list WallMutation)
  | OpJump (direction : string)
  | OpSyncPosition (x y : Z)
  | OpStartDecision (x y : Z)
  | OpStartLift (hero ally : Z * Z)
  | OpThrowLift (ally : Z * Z) (direction : string)
  | OpDissolve (x y : Z)
  | OpSubmit (question_id : string) (choice_id : option Z) (free_text : option string)
  | OpFreezeHit (damage_percent : option Q)
  | OpEscape (x y : option Z)
  | OpShield
  | OpBlink
  | OpSetActive (coords : list (Z * Z)).

(** One request served at clock reading [now]. *)
Definition exec (op : Op) (now : Q) (c : Controller) : Controller * Outcome :=
  match op with
  | OpGetState => let '(c, p) := get_state_payload now c in (c, Returned (ReplyState p))
  | OpRestart => restart_game now c
  | OpPlaceTrap t x y => place_trap t x y now c
  | OpMove x y => move_player x y now c
  | OpWallMutations ms => apply_wall_mutations ms c
  | OpJump d => jump_player d now c
  | OpSyncPosition x y => sync_position x y now c
  | OpStartDecision x y => start_decision x y c
  | OpStartLift hero ally => start_lift hero ally now c
  | OpThrowLift ally d => throw_lift ally d now c
  | OpDissolve x y => dissolve_node x y now c
  | OpSubmit q ch ft => submit_decision q ch ft now c
  | OpFreezeHit p => apply_freeze_hit p now c
  | OpEscape x y => escape_hero x y c
  | OpShield => activate_shield now c
  | OpBlink => blink_ally now c
  | OpSetActive coords => set_active_decisions coords c
  end.
End Controller.

(** * Notions used in the statements and in their proofs *)

(** The seed that [generate_maze] uses. *)
Definition seed_used `{RandomSource} (sd : option Z) (g0 : rng) : Z :=
  match sd with Some s => s | None => (randint 1 999999 g0).1 end.

(** The coordinates stored in the cells, row by row. *)
Definition grid_coords (g : Grid) : list (list (Z * Z)) :=
  (λ row : list Cell, (λ c, (cell_x c, cell_y c)) <$> row) <$> g.

(** A grid is well formed when [grid[y][x]] is the cell whose fields are
    [x] and [y], for [x] in [range(w)] and [y] in [range(h)]. *)
Definition grid_wf (w h : Z) (g : Grid) : Prop :=
  grid_coords g = (λ y, (λ x, (x, y)) <$> range w) <$> range h.

(** One step of the hero through an open wall, as [move_player] accepts it. *)
Definition passage (m : Maze) (p q : Z * Z) : Prop :=
  ∃ c d, get_cell m p = Some c ∧ can_move c d = true
         ∧ q = step_from p d ∧ is_Some (get_cell m q).

Definition reachable (m : Maze) : relation (Z * Z) := rtc (passage m).

Definition is_open (m : Maze) (p : Z * Z) (d : Direction) : Prop :=
  (λ c, wall_get (walls c) d) <$> get_cell m p = Some false.

Definition is_visited (m : Maze) (p : Z * Z) : Prop :=
  visited <$> get_cell m p = Some true.

Definition is_decision_node (m : Maze) (p : Z * Z) : Prop :=
  decision_node <$> get_cell m p = Some true.

#[global] Instance is_open_dec m p d : Decision (is_open m p d).
Proof. unfold is_open. apply _. Defined.

#[global] Instance is_visited_dec m p : Decision (is_visited m p).
Proof. unfold is_visited. apply _. Defined.

#[global] Instance is_decision_node_dec m p : Decision (is_decision_node m p).
Proof. unfold is_decision_node. apply _. Defined.

(** The walls between two cells of the grid, each named once: by its
    western cell and [east], or by its northern cell and [south]. *)
Definition internal_walls (w h : Z) : list ((Z * Z) * Direction) :=
  p ← coords w h;
  d ← [east; south];
  if in_bounds w h (step_from p d) then [(p, d)] else [].

Definition removed_walls (m : Maze) : nat :=
  length (filter (λ pd, is_open m pd.1 pd.2) (internal_walls (width m) (height m))).

(** Every side of every cell. *)
Definition all_sides (w h : Z) : list ((Z * Z) * Direction) :=
  p ← coords w h; (λ d, (p, d)) <$> directions.

Definition open_sides (m : Maze) : nat :=
  length (filter (λ pd, is_open m pd.1 pd.2) (all_sides (width m) (height m))).

Definition visited_count (m : Maze) : nat :=
  length (filter (is_visited m) (coords (width m) (height m))).

(** The coordinates of the decision nodes, in row-major order (the list
    [decision_nodes] of [get_maze_payload], before its filter). *)
Definition decision_nodes (m : Maze) : list (Z * Z) :=
  filter (is_decision_node m) (coords (width m) (height m)).

(** The maze after the wall between [current] and its neighbour in
    direction [d] was opened and the neighbour marked visited. *)
Definition carve_step (m : Maze) (current : Z * Z) (d : Direction) : Maze :=
  let next_cell := step_from current d in
  let gr := grid_alter (set_wall d false) current (grid m) in
  let gr := grid_alter (set_wall (opposite d) false) next_cell gr in
  let gr := grid_alter (set_visited true) next_cell gr in
  with_grid m gr.

Record carve_inv (m : Maze) (stack : list (Z * Z)) : Prop := {
  inv_wf : grid_wf (width m) (height m) (grid m);
  inv_origin : is_visited m (0, 0);
  inv_stack : ∀ p, p ∈ stack → is_visited m p;
  inv_sym : ∀ p d, is_open m p d → is_open m (step_from p d) (opposite d);
  inv_open_visited : ∀ p d, is_open m p d → is_visited m p;
  inv_reach : ∀ p, is_visited m p → reachable m (0, 0) p;
  inv_sides : (open_sides m + 2 = 2 * visited_count m)%nat;
  inv_walls : (removed_walls m + 1 = visited_count m)%nat;
  inv_done : ∀ p d, is_visited m p → p ∉ stack →
             in_bounds (width m) (height m) (step_from p d) = true →
             is_visited m (step_from p d);
  inv_unmarked : ∀ p, ¬ is_decision_node m p }.

Definition fresh_grid (w h : Z) : Grid :=
  (λ y, (λ x, new_cell x y) <$> range w) <$> range h.

(** The maze with which the loop starts: every wall closed, the start cell
    visited. *)
Definition initial_maze (w h s : Z) : Maze :=
  with_grid (mkMaze w h s (fresh_grid w h) (0, 0))
    (grid_alter (set_visited true) (0, 0) (fresh_grid w h)).

(** [cell.decision_node = True] for each coordinate of [L] in turn. *)
Definition mark_all (L : list (Z * Z)) (gr : Grid) : Grid :=
  foldl (λ gr p, grid_alter (set_decision_node true) p gr) gr L.

(** Two mazes with the same walls. *)
Definition same_walls (m m' : Maze) : Prop :=
  width m' = width m ∧ height m' = height m
  ∧ ∀ p, walls <$> get_cell m' p = walls <$> get_cell m p.

(** The number of open sides of the cell at [p]. *)
Definition openings_at (m : Maze) (p : Z * Z) : nat :=
  length (filter (λ d, is_open m p d) directions).

(** The cells with at least two open sides. *)
Definition junctions (m : Maze) : list (Z * Z) :=
  filter (λ p, 2 ≤ openings_at m p)%nat (coords (width m) (height m)).

(** The time-gated abilities and the table of their parameters. *)
Inductive Ability :=
  | ally_jump | ally_freeze | ally_expand | ally_dissolve
  | ally_lift | ally_blink | ally_trap.

(** The regeneration pass of each ability. *)
Definition replenish (a : Ability) : Q → GameState → GameState :=
  match a with
  | ally_jump => _replenish_ally_jump_charges
  | ally_freeze => _replenish_freeze_charges
  | ally_expand => _replenish_expand_charges
  | ally_dissolve => _replenish_dissolve_charges
  | ally_lift => _replenish_lift_charges
  | ally_blink => _replenish_blink_charges
  | ally_trap => _replenish_trap_charges
  end.







(** The fields that the regeneration passes leave alone. *)
Definition vitals (s : GameState) :=
  (current_position s, ally_position s, visited_nodes s, hero_health s,
   shield_charges s, shield_last_age s, shield_active_until s, age s).

(** The fields that track decisions. *)
Definition decisions (s : GameState) := (active_decisions s, dissolved_nodes s).

(** The coordinates that are dissolved at the moment. *)
Definition dissolved_coords (s : GameState) : gset (Z * Z) :=
  dom (default ∅ (dissolved_nodes s)).

(** ** A concrete random source

    A linear congruential generator with an insertion shuffle.  It inhabits
    the interface, and the examples of Part II run on it. *)

Module Lcg.
Definition next (s : Z) : Z := (1103515245 * s + 12345) mod 2147483648.

Definition below (n : nat) (s : Z) : nat * Z :=
  (Z.to_nat ((next s / 65536) mod Z.of_nat n), next s).

Definition unit (s : Z) : Q * Z := (((next s / 65536) mod 1000) # 1000, next s).

Fixpoint insertion_shuffle {A : Type} (l : list A) (s : Z) : list A * Z :=
  match l with
  | [] => ([], s)
  | x :: l' =>
    let '(l'', s) := insertion_shuffle l' s in
    let '(k, s) := below (S (length l'')) s in
    (take k l'' ++ x :: drop k l'', s)
  end.

Lemma below_lt n s : (0 < n)%nat → ((below n s).1 < n)%nat.
Proof.
  intros Hn. unfold below. simpl.
  pose proof (Z.mod_pos_bound (next s / 65536) (Z.of_nat n)). lia.
Qed.

Lemma insertion_shuffle_perm (A : Type) (l : list A) s :
  (insertion_shuffle l s).1 ≡ₚ l.
Proof.
  revert s. induction l as [|x l IH]; intros s; simpl; [done|].
  specialize (IH s). destruct (insertion_shuffle l s) as [l'' s1]. simpl in IH.
  destruct (below (S (length l'')) s1) as [k s2]. simpl.
  rewrite <- Permutation_middle, take_drop. by constructor.
Qed.

#[export] Instance source : RandomSource := {|
  rng := Z;
  rng_seed := λ n, n mod 2147483648;
  randbelow := below;
  randbelow_lt := below_lt;
  random_unit := unit;
  shuffle := @insertion_shuffle;
  shuffle_perm := insertion_shuffle_perm |}.
End Lcg.

(** ** A concrete session

    A provider that always answers with the same question and review, and
    the controller of a fresh 3-by-3 session on the generator [Lcg.source]. *)

Module Demo.
Definition the_question : Question :=
  mkQuestion "q1" "Share the last seat?" ["Yes"; "No"] (1 # 2) (Some ["empathy"]).

#[export] Instance collaborators : @Collaborators Lcg.source := {|
  provider := unit;
  ai_get_question := λ _ _ _ pv g, (inr the_question, pv, g);
  ai_review := λ _ _ _ pv g, (inr (mkReview 3 (1 # 2) "ok"), pv, g);
  ai_score_values := λ _ _ _ pv g, (inr None, pv, g);
  ai_feedback_voices := λ _ _ _ pv g, (inr None, pv, g);
  pick_for_stage := λ _, [] |}.

Definition settings0 : Settings := mkSettings 10 90 3 3.

(** [run.py]: a new profile, the maze of seed 42, the controller. *)
Definition controller0 : option (@Controller Lcg.source collaborators) :=
  '(m, g) ← @generate_maze Lcg.source 3 3 (Some 42) 0;
  match GameController_init (H0 := collaborators) settings0
          (with_age 10 (with_state_seed 42 (GameState_init None 0))) m tt g 0 with
  | inr c => Some c
  | inl _ => None
  end.
End Demo.

(** * Part II: properties *)

Set Warnings "-clear-no-such-hyp".

(** ** The random source *)

Section RandomFacts.
Context `{RandomSource}.

Lemma choice_Some {A : Type} (l : list A) g :
  l ≠ [] → ∃ a g', choice l g = Some (a, g') ∧ a ∈ l.
Proof.
  intros Hl. unfold choice. destruct l as [|a0 l0]; [done|].
  pose proof (randbelow_lt (length (a0 :: l0)) g) as Hlt.
  destruct (randbelow (length (a0 :: l0)) g) as [i g'] eqn:E. simpl in Hlt.
  destruct (lookup_lt_is_Some_2 (a0 :: l0) i) as [a Ha]; [simpl; lia|].
  exists a, g'. rewrite Ha. split; [done|]. by eapply list_elem_of_lookup_2.
Qed.

Lemma choice_elem {A : Type} (l : list A) g a g' :
  choice l g = Some (a, g') → a ∈ l.
Proof.
  unfold choice. destruct l as [|a0 l0]; [done|].
  destruct (randbelow _ g) as [i g1].
  destruct ((a0 :: l0) !! i) eqn:E; [|done]. simpl. intros [= <- <-].
  by eapply list_elem_of_lookup_2.
Qed.
End RandomFacts.

(** ** Grids as stores of cells *)

Lemma grid_get_alter_eq f p (g : Grid) :
  grid_get (grid_alter f p g) p = f <$> grid_get g p.
Proof.
  unfold grid_get, grid_alter. rewrite list_lookup_alter_eq.
  destruct (g !! Z.to_nat p.2) as [row|]; simpl; [|done].
  by rewrite list_lookup_alter_eq.
Qed.

Lemma grid_get_alter_ne f p q (g : Grid) :
  0 ≤ p.1 → 0 ≤ p.2 → 0 ≤ q.1 → 0 ≤ q.2 → p ≠ q →
  grid_get (grid_alter f p g) q = grid_get g q.
Proof.
  intros ???? Hne. unfold grid_get, grid_alter.
  destruct (decide (Z.to_nat p.2 = Z.to_nat q.2)) as [Hy|Hy].
  - rewrite Hy, list_lookup_alter_eq.
    destruct (g !! Z.to_nat q.2) as [row|]; simpl; [|done].
    rewrite list_lookup_alter_ne; [done|].
    intros Hx. apply Hne. destruct p, q; simpl in *. f_equal; lia.
  - by rewrite list_lookup_alter_ne.
Qed.

Lemma alter_id_eq {A : Type} (l : list A) i : alter id i l = l.
Proof. revert i. induction l as [|a l IH]; intros [|i]; try done. simpl. f_equal. apply IH. Qed.

Lemma grid_wf_alter w h f p g :
  (∀ c, cell_x (f c) = cell_x c ∧ cell_y (f c) = cell_y c) →
  grid_wf w h g → grid_wf w h (grid_alter f p g).
Proof.
  intros Hf Hwf. unfold grid_wf, grid_coords, grid_alter in *.
  erewrite (list_fmap_alter _ _ id); [by rewrite alter_id_eq|].
  apply Forall_forall. intros row _. simpl.
  erewrite (list_fmap_alter _ _ id); [by rewrite alter_id_eq|].
  apply Forall_forall. intros c _. simpl. by destruct (Hf c) as [-> ->].
Qed.

Lemma grid_wf_get w h g p :
  grid_wf w h g → in_bounds w h p = true →
  ∃ c, grid_get g p = Some c ∧ cell_x c = p.1 ∧ cell_y c = p.2.
Proof.
  intros Hwf Hb. apply bool_decide_eq_true in Hb. destruct Hb as [Hx Hy].
  assert (grid_coords g !! Z.to_nat p.2 = Some ((λ x, (x, p.2)) <$> range w)) as Hrow.
  { rewrite Hwf, list_lookup_fmap. unfold range.
    assert (Z.of_nat (Z.to_nat p.2) < h) as Hlt by lia.
    rewrite (lookup_seqZ_lt _ _ _ Hlt), Z2Nat.id by lia. done. }
  unfold grid_coords in Hrow. rewrite list_lookup_fmap in Hrow.
  unfold grid_get. destruct (g !! Z.to_nat p.2) as [row|]; simpl in *; [|done].
  injection Hrow as Hrow.
  assert (((λ c, (cell_x c, cell_y c)) <$> row) !! Z.to_nat p.1 = Some (p.1, p.2)) as Hc.
  { rewrite Hrow, list_lookup_fmap. unfold range.
    assert (Z.of_nat (Z.to_nat p.1) < w) as Hlt by lia.
    rewrite (lookup_seqZ_lt _ _ _ Hlt), Z2Nat.id by lia. done. }
  rewrite list_lookup_fmap in Hc.
  destruct (row !! Z.to_nat p.1) as [c|]; simpl in *; [|done].
  exists c. injection Hc as ??. done.
Qed.

Lemma grid_wf_concat w h g :
  grid_wf w h g → (λ c, (cell_x c, cell_y c)) <$> concat g = coords w h.
Proof.
  intros Hwf. unfold coords.
  transitivity (concat (grid_coords g)).
  - unfold grid_coords. clear. induction g as [|row g IH]; simpl; [done|].
    rewrite fmap_app. f_equal. apply IH.
  - rewrite Hwf. generalize (range h). intros l.
    induction l as [|y l IH]; simpl; [done|]. f_equal. apply IH.
Qed.

Lemma elem_of_coords w h p : p ∈ coords w h ↔ in_bounds w h p = true.
Proof.
  unfold coords, range, in_bounds. rewrite bool_decide_eq_true, list_elem_of_bind.
  split.
  - intros (y & Hp & Hy). apply list_elem_of_fmap in Hp as (x & -> & Hx).
    apply elem_of_seqZ in Hx, Hy. simpl. lia.
  - intros [??]. exists p.2. split.
    + apply list_elem_of_fmap. exists p.1. split; [by destruct p|].
      apply elem_of_seqZ. lia.
    + apply elem_of_seqZ. lia.
Qed.

Lemma NoDup_coords w h : NoDup (coords w h).
Proof.
  unfold coords, range. apply NoDup_bind.
  - intros y1 y2 p _ _ H1 H2.
    apply list_elem_of_fmap in H1 as (x1 & -> & _).
    apply list_elem_of_fmap in H2 as (x2 & [= _ ->] & _). done.
  - intros y _. apply NoDup_fmap_2; [|apply NoDup_seqZ].
    intros x1 x2 [= ->]. done.
  - apply NoDup_seqZ.
Qed.

Lemma length_coords w h : length (coords w h) = (Z.to_nat w * Z.to_nat h)%nat.
Proof.
  unfold coords, range. rewrite <- (length_seqZ 0 h).
  induction (seqZ 0 h) as [|y l IH]; simpl; [lia|].
  rewrite length_app, length_fmap, length_seqZ.
  unfold mbind in IH. rewrite IH. lia.
Qed.

(** ** What the claims about mazes speak of *)

(** ** Counting under a pointwise change *)

Lemma filter_length_ext {A} (P Q : A → Prop) `{!∀ x, Decision (P x)}
    `{!∀ x, Decision (Q x)} (l : list A) :
  (∀ b, b ∈ l → (P b ↔ Q b)) → length (filter Q l) = length (filter P l).
Proof.
  induction l as [|x l IH]; intros Hext; [done|].
  rewrite !filter_cons.
  assert (P x ↔ Q x) as Hx by (apply Hext; left).
  assert (length (filter Q l) = length (filter P l)) as Hl
    by (apply IH; intros b Hb; apply Hext; by right).
  destruct (decide (P x)), (decide (Q x)); simpl; try tauto; by rewrite ?Hl.
Qed.

Lemma filter_length_add {A} (P Q : A → Prop) `{!∀ x, Decision (P x)}
    `{!∀ x, Decision (Q x)} (l : list A) (a : A) :
  NoDup l → a ∈ l → ¬ P a → Q a →
  (∀ b, b ∈ l → b ≠ a → (P b ↔ Q b)) →
  length (filter Q l) = S (length (filter P l)).
Proof.
  induction l as [|x l IH]; intros Hnd Ha HP HQ Hext; [by apply elem_of_nil in Ha|].
  apply NoDup_cons in Hnd as [Hx Hnd]. rewrite !filter_cons.
  apply elem_of_cons in Ha as [<-|Ha].
  - destruct (decide (P a)), (decide (Q a)); try tauto. simpl. f_equal.
    apply filter_length_ext. intros b Hb. apply Hext; [by right|].
    intros ->. done.
  - assert (x ≠ a) as Hne by (intros ->; done).
    assert (P x ↔ Q x) as Hpx by (apply Hext; [left|done]).
    assert (length (filter Q l) = S (length (filter P l))) as Hl.
    { apply IH; try done. intros b Hb. apply Hext. by right. }
    destruct (decide (P x)), (decide (Q x)); simpl; try tauto; by rewrite Hl.
Qed.

(** ** Cells *)

Lemma wall_get_set d e b w :
  wall_get (wall_set d b w) e = if decide (d = e) then b else wall_get w e.
Proof. by destruct d, e, w. Qed.

Lemma opposite_involutive d : opposite (opposite d) = d.
Proof. by destruct d. Qed.

Lemma opposite_ne d : opposite d ≠ d.
Proof. by destruct d. Qed.

Lemma step_from_opposite p d : step_from (step_from p d) (opposite d) = p.
Proof. destruct p as [x y], d; unfold step_from; simpl; f_equal; lia. Qed.

Lemma step_from_ne p d : step_from p d ≠ p.
Proof. destruct p as [x y], d; unfold step_from; simpl; intros [=]; lia. Qed.

Lemma step_from_inj p d e : step_from p d = step_from p e → d = e.
Proof. destruct p as [x y], d, e; unfold step_from; simpl; intros [=]; (done || lia). Qed.

(** ** Reading a maze after an in-place update *)

Lemma get_cell_with_grid_alter m f p q :
  in_bounds (width m) (height m) p = true →
  get_cell (with_grid m (grid_alter f p (grid m))) q
  = if decide (p = q) then f <$> get_cell m p else get_cell m q.
Proof.
  intros Hp. unfold get_cell. simpl.
  destruct (decide (p = q)) as [<-|Hne].
  - rewrite Hp. apply grid_get_alter_eq.
  - destruct (in_bounds (width m) (height m) q) eqn:Hq; [|done].
    apply bool_decide_eq_true in Hp, Hq.
    apply grid_get_alter_ne; (lia || done).
Qed.

Lemma get_cell_in_bounds m p c :
  get_cell m p = Some c → in_bounds (width m) (height m) p = true.
Proof. unfold get_cell. by destruct in_bounds. Qed.

Lemma get_cell_wf m p :
  grid_wf (width m) (height m) (grid m) →
  in_bounds (width m) (height m) p = true →
  ∃ c, get_cell m p = Some c ∧ cell_x c = p.1 ∧ cell_y c = p.2.
Proof.
  intros Hwf Hp. unfold get_cell. rewrite Hp. by eapply grid_wf_get.
Qed.

(** ** One carving step *)

Section CarveStep.
Context (m : Maze) (cur : Z * Z) (d : Direction).
Let next := step_from cur d.
Context (c_cur c_next : Cell).
Hypothesis Hcur : get_cell m cur = Some c_cur.
Hypothesis Hnext : get_cell m next = Some c_next.

Lemma carve_step_get q :
  get_cell (carve_step m cur d) q
  = if decide (q = next) then Some (set_visited true (set_wall (opposite d) false c_next))
    else if decide (q = cur) then Some (set_wall d false c_cur)
    else get_cell m q.
Proof.
  pose proof (get_cell_in_bounds _ _ _ Hcur) as Bcur.
  pose proof (get_cell_in_bounds _ _ _ Hnext) as Bnext.
  assert (next ≠ cur) as Hne by apply step_from_ne.
  set (m1 := with_grid m (grid_alter (set_wall d false) cur (grid m))).
  set (m2 := with_grid m1 (grid_alter (set_wall (opposite d) false) next (grid m1))).
  change (carve_step m cur d)
    with (with_grid m2 (grid_alter (set_visited true) next (grid m2))).
  rewrite get_cell_with_grid_alter by done.
  unfold m2 at 1. destruct (decide (next = q)) as [<-|Hq].
  - rewrite decide_True by done.
    rewrite get_cell_with_grid_alter, decide_True by done.
    unfold m1. rewrite get_cell_with_grid_alter, decide_False by done.
    by rewrite Hnext.
  - rewrite decide_False by done.
    unfold m2. rewrite get_cell_with_grid_alter, decide_False by done.
    unfold m1. rewrite get_cell_with_grid_alter by done.
    destruct (decide (cur = q)) as [<-|Hq'].
    + rewrite decide_True by done. by rewrite Hcur.
    + by rewrite decide_False.
Qed.

Lemma carve_step_visited q :
  is_visited (carve_step m cur d) q ↔ q = next ∨ is_visited m q.
Proof.
  unfold is_visited. rewrite carve_step_get.
  destruct (decide (q = next)) as [->|Hq]; [simpl; tauto|].
  destruct (decide (q = cur)) as [->|Hq'].
  - rewrite Hcur. simpl. split; [tauto|]. by intros [?|?].
  - split; [tauto|]. by intros [?|?].
Qed.

Lemma carve_step_open q e :
  is_open (carve_step m cur d) q e
  ↔ (q = cur ∧ e = d) ∨ (q = next ∧ e = opposite d) ∨ is_open m q e.
Proof.
  assert (next ≠ cur) as Hne by apply step_from_ne.
  unfold is_open. rewrite carve_step_get.
  destruct (decide (q = next)) as [->|Hq].
  - rewrite Hnext. simpl. rewrite wall_get_set.
    destruct (decide (opposite d = e)) as [<-|He].
    + tauto.
    + split; [tauto|]. intros [[? _]|[[_ ->]|?]]; done.
  - destruct (decide (q = cur)) as [->|Hq'].
    + rewrite Hcur. simpl. rewrite wall_get_set.
      destruct (decide (d = e)) as [<-|He]; [tauto|].
      split; [tauto|]. intros [[_ ->]|[[? _]|?]]; done.
    + split; [tauto|]. intros [[? _]|[[? _]|?]]; done.
Qed.

Lemma carve_step_wf :
  grid_wf (width m) (height m) (grid m) →
  grid_wf (width m) (height m) (grid (carve_step m cur d)).
Proof. intros Hwf. simpl. by repeat apply grid_wf_alter. Qed.
End CarveStep.

(** ** The lists that are counted *)

Lemma elem_of_all_sides w h p d : (p, d) ∈ all_sides w h ↔ in_bounds w h p = true.
Proof.
  unfold all_sides. rewrite list_elem_of_bind. split.
  - intros (q & Hq & Hin). apply list_elem_of_fmap in Hq as (e & [= -> ->] & _).
    by apply elem_of_coords.
  - intros Hp. exists p. split; [|by apply elem_of_coords].
    apply list_elem_of_fmap. exists d. split; [done|]. destruct d; set_solver.
Qed.

Lemma NoDup_all_sides w h : NoDup (all_sides w h).
Proof.
  unfold all_sides. apply NoDup_bind; [| |apply NoDup_coords].
  - intros p1 p2 [q e] _ _ H1 H2.
    apply list_elem_of_fmap in H1 as (? & [= -> _] & _).
    apply list_elem_of_fmap in H2 as (? & [= -> _] & _). done.
  - intros p _. apply NoDup_fmap_2; [by intros ?? [=]|].
    unfold directions. repeat (apply NoDup_cons; split; [set_solver|]). apply NoDup_nil_2.
Qed.

Lemma elem_of_internal_walls w h p d :
  (p, d) ∈ internal_walls w h
  ↔ in_bounds w h p = true ∧ (d = east ∨ d = south)
    ∧ in_bounds w h (step_from p d) = true.
Proof.
  unfold internal_walls. rewrite list_elem_of_bind. split.
  - intros (q & Hq & Hin). apply elem_of_coords in Hin.
    apply list_elem_of_bind in Hq as (e & He & Hd).
    destruct (in_bounds w h (step_from q e)) eqn:Hb; [|by apply elem_of_nil in He].
    apply list_elem_of_singleton in He as [= -> ->]. set_solver.
  - intros (Hp & Hd & Hn). exists p. split; [|by apply elem_of_coords].
    apply list_elem_of_bind. exists d. rewrite Hn. set_solver.
Qed.

Lemma NoDup_internal_walls w h : NoDup (internal_walls w h).
Proof.
  unfold internal_walls. apply NoDup_bind; [| |apply NoDup_coords].
  - intros p1 p2 [q e] _ _ H1 H2.
    apply list_elem_of_bind in H1 as (e1 & H1 & _).
    apply list_elem_of_bind in H2 as (e2 & H2 & _).
    destruct (in_bounds w h (step_from p1 e1)); [|by apply elem_of_nil in H1].
    destruct (in_bounds w h (step_from p2 e2)); [|by apply elem_of_nil in H2].
    apply list_elem_of_singleton in H1, H2. congruence.
  - intros p _. simpl.
    destruct (in_bounds w h (step_from p east)), (in_bounds w h (step_from p south));
      simpl; repeat (apply NoDup_cons; split; [set_solver|]); apply NoDup_nil_2.
Qed.

(** ** The invariant of the carving loop *)

Lemma is_visited_in_bounds m p :
  is_visited m p → in_bounds (width m) (height m) p = true.
Proof.
  unfold is_visited. destruct (get_cell m p) eqn:E; [|done].
  intros _. by eapply get_cell_in_bounds.
Qed.

Lemma is_open_in_bounds m p d :
  is_open m p d → in_bounds (width m) (height m) p = true.
Proof.
  unfold is_open. destruct (get_cell m p) eqn:E; [|done].
  intros _. by eapply get_cell_in_bounds.
Qed.

Lemma passage_open m p q :
  passage m p q ↔ ∃ d, is_open m p d ∧ q = step_from p d ∧ is_Some (get_cell m q).
Proof.
  unfold passage, is_open, can_move. split.
  - intros (c & d & Hc & Hm & -> & Hq). exists d. rewrite Hc. simpl.
    apply negb_true_iff in Hm. by rewrite Hm.
  - intros (d & Ho & -> & Hq). destruct (get_cell m p) as [c|]; [|done].
    exists c, d. simpl in Ho. injection Ho as ->. done.
Qed.

Lemma carve_inv_pop m cur rest :
  carve_inv m (cur :: rest) →
  (∀ d, in_bounds (width m) (height m) (step_from cur d) = true →
        is_visited m (step_from cur d)) →
  carve_inv m rest.
Proof.
  intros [] Hall. split; try done.
  - intros p Hp. apply inv_stack0. by right.
  - intros p d Hv Hp Hb. destruct (decide (p = cur)) as [->|Hne]; [by apply Hall|].
    apply inv_done0; try done. set_solver.
Qed.

Lemma carve_inv_push m cur rest d :
  carve_inv m (cur :: rest) →
  in_bounds (width m) (height m) (step_from cur d) = true →
  ¬ is_visited m (step_from cur d) →
  carve_inv (carve_step m cur d) (step_from cur d :: cur :: rest)
  ∧ visited_count (carve_step m cur d) = S (visited_count m).
Proof.
  intros [] Hb Hunv.
  set (next := step_from cur d) in *.
  assert (is_visited m cur) as Hvcur by (apply inv_stack0; left).
  pose proof (is_visited_in_bounds _ _ Hvcur) as Bcur.
  destruct (get_cell_wf m cur inv_wf0 Bcur) as (c_cur & Hcur & _).
  destruct (get_cell_wf m next inv_wf0 Hb) as (c_next & Hnext & _).
  pose proof (carve_step_visited m cur d c_cur c_next Hcur Hnext) as Hvis.
  pose proof (carve_step_open m cur d c_cur c_next Hcur Hnext) as Hopen.
  pose proof (carve_step_get m cur d c_cur c_next Hcur Hnext) as Hget.
  fold next in Hvis, Hopen, Hget.
  set (m' := carve_step m cur d) in *.
  assert (next ≠ cur) as Hne by apply step_from_ne.
  assert (∀ e, ¬ is_open m next e) as Hclosed_next.
  { intros e He. by apply Hunv, (inv_open_visited0 _ e). }
  assert (¬ is_open m cur d) as Hclosed_cur.
  { intros Ho. by apply (Hclosed_next (opposite d)), inv_sym0. }
  assert (∀ q, is_Some (get_cell m q) → is_Some (get_cell m' q)) as Hsome.
  { intros q Hq. rewrite Hget. repeat case_decide; eauto. }
  assert (∀ p q, passage m p q → passage m' p q) as Hpass.
  { intros p q. rewrite !passage_open. intros (e & Ho & -> & Hq).
    exists e. split; [apply Hopen; tauto|]. split; [done|by apply Hsome]. }
  assert (visited_count m' = S (visited_count m)) as Hcount.
  { unfold visited_count. apply (filter_length_add _ _ _ next).
    - apply NoDup_coords.
    - by apply elem_of_coords.
    - done.
    - apply Hvis. by left.
    - intros b _ Hb'. rewrite Hvis. tauto. }
  split; [|done]. split.
  - by apply (carve_step_wf m cur d).
  - apply Hvis. by right.
  - intros p Hp. apply Hvis. apply elem_of_cons in Hp as [->|Hp]; [by left|].
    right. by apply inv_stack0.
  - intros p e. rewrite !Hopen. intros [[-> ->]|[[-> ->]|Ho]].
    + right. left. done.
    + left. split; [apply step_from_opposite|apply opposite_involutive].
    + right. right. by apply inv_sym0.
  - intros p e. rewrite Hopen, Hvis. intros [[-> ->]|[[-> ->]|Ho]].
    + by right.
    + by left.
    + right. by eapply inv_open_visited0.
  - intros p. rewrite Hvis. intros [->|Hv].
    + eapply rtc_r.
      * eapply rtc_subrel; [apply Hpass|]. by apply inv_reach0.
      * apply passage_open. exists d. split; [apply Hopen; tauto|].
        split; [done|]. apply Hsome. by rewrite Hnext.
    + eapply rtc_subrel; [apply Hpass|]. by apply inv_reach0.
  - rewrite Hcount. unfold open_sides in *.
    set (P1 := λ pd : Z * Z * Direction, pd = (cur, d) ∨ is_open m pd.1 pd.2).
    assert (length (filter P1 (all_sides (width m) (height m)))
            = S (length (filter (λ pd, is_open m pd.1 pd.2)
                           (all_sides (width m) (height m))))) as H1.
    { apply (filter_length_add _ _ _ (cur, d)).
      - apply NoDup_all_sides.
      - by apply elem_of_all_sides.
      - done.
      - by left.
      - intros b _ Hb'. unfold P1. tauto. }
    assert (length (filter (λ pd, is_open m' pd.1 pd.2) (all_sides (width m) (height m)))
            = S (length (filter P1 (all_sides (width m) (height m))))) as H2.
    { apply (filter_length_add _ _ _ (next, opposite d)).
      - apply NoDup_all_sides.
      - by apply elem_of_all_sides.
      - unfold P1. simpl. intros [[= ? _]|Ho]; [done|]. by apply (Hclosed_next (opposite d)).
      - simpl. apply Hopen. tauto.
      - intros [q e] _ Hb'. unfold P1. simpl. rewrite Hopen. split.
        + intros [[= -> ->]|?]; tauto.
        + intros [[-> ->]|[[-> ->]|?]]; tauto. }
    change (width m') with (width m). change (height m') with (height m).
    rewrite H2, H1. lia.
  - rewrite Hcount. unfold removed_walls in *.
    change (width m') with (width m). change (height m') with (height m).
    cut (length (filter (λ pd, is_open m' pd.1 pd.2) (internal_walls (width m) (height m)))
         = S (length (filter (λ pd, is_open m pd.1 pd.2)
                        (internal_walls (width m) (height m))))); [lia|].
    destruct (decide (d = east ∨ d = south)) as [Hd|Hd].
    + apply (filter_length_add _ _ _ (cur, d)).
      * apply NoDup_internal_walls.
      * by apply elem_of_internal_walls.
      * done.
      * simpl. apply Hopen. tauto.
      * intros [q e] Hin Hb'. apply elem_of_internal_walls in Hin as (_ & He & _).
        simpl. rewrite Hopen. split; [tauto|].
        intros [[-> ->]|[[-> ->]|?]]; try done.
        exfalso. destruct d, Hd, He; done.
    + assert (opposite d = east ∨ opposite d = south) as Hd'
        by (destruct d; simpl; tauto).
      apply (filter_length_add _ _ _ (next, opposite d)).
      * apply NoDup_internal_walls.
      * apply elem_of_internal_walls. unfold next. by rewrite step_from_opposite.
      * simpl. apply Hclosed_next.
      * simpl. apply Hopen. tauto.
      * intros [q e] Hin Hb'. apply elem_of_internal_walls in Hin as (_ & He & _).
        simpl. rewrite Hopen. split; [tauto|].
        intros [[-> ->]|[[-> ->]|?]]; try done.
  - intros p e. rewrite !Hvis. intros [->|Hv] Hp Hbe; [set_solver|].
    right. apply inv_done0; [done|set_solver|done].
  - intros p. unfold is_decision_node. rewrite Hget.
    destruct (decide (p = next)) as [->|?].
    { simpl. intros [= Hd]. apply (inv_unmarked0 next).
      unfold is_decision_node. by rewrite Hnext, <- Hd. }
    destruct (decide (p = cur)) as [->|?]; [|apply inv_unmarked0].
    simpl. intros [= Hd]. apply (inv_unmarked0 cur).
    unfold is_decision_node. by rewrite Hcur, <- Hd.
Qed.

(** ** The carving loop *)

Lemma elem_of_get_neighbors m c n d :
  (n, d) ∈ get_neighbors m c
  ↔ n = step_from (cell_x c, cell_y c) d ∧ is_Some (get_cell m n).
Proof.
  unfold get_neighbors. rewrite list_elem_of_omap. split.
  - intros (e & _ & He). destruct (get_cell m (step_from _ e)) eqn:E; [|done].
    simpl in He. injection He as <- <-. by rewrite E.
  - intros [-> [c' Hc']]. exists d. split; [destruct d; set_solver|].
    by rewrite Hc'.
Qed.

Section Carve.
Context `{RandomSource}.

Lemma carve_spec fuel : ∀ m stack g,
  carve_inv m stack →
  (2 * (length (coords (width m) (height m)) - visited_count m) + length stack
    ≤ fuel)%nat →
  ∃ m' g', carve fuel m stack g = Some (m', g') ∧ carve_inv m' []
           ∧ width m' = width m ∧ height m' = height m
           ∧ seed m' = seed m ∧ start_pos m' = start_pos m.
Proof.
  induction fuel as [|fuel IH]; intros m stack g Hinv Hfuel.
  { destruct stack; [|simpl in Hfuel; lia]. by exists m, g. }
  destruct stack as [|cur rest]; [by exists m, g|].
  simpl.
  assert (is_visited m cur) as Hvcur by (eapply inv_stack; [done|left]).
  pose proof (is_visited_in_bounds _ _ Hvcur) as Bcur.
  destruct (get_cell_wf m cur (inv_wf _ _ Hinv) Bcur) as (c & Hc & Hx & Hy).
  rewrite Hc. simpl.
  assert ((cell_x c, cell_y c) = cur) as Hcoord by (destruct cur; simpl in *; congruence).
  destruct (filter _ (get_neighbors m c)) as [|nd0 l0] eqn:Hf.
  - (* no unvisited neighbour: backtrack *)
    apply IH; [|simpl in Hfuel; lia].
    eapply carve_inv_pop; [done|]. intros d Hb.
    destruct (get_cell_wf m _ (inv_wf _ _ Hinv) Hb) as (c' & Hc' & _).
    assert ((step_from cur d, d) ∈ get_neighbors m c) as Hin.
    { apply elem_of_get_neighbors. rewrite Hcoord, Hc'. eauto. }
    assert ((step_from cur d, d) ∉ filter
              (λ nd, visited <$> get_cell m nd.1 = Some false) (get_neighbors m c))
      as Hnot by (rewrite Hf; apply not_elem_of_nil).
    rewrite list_elem_of_filter in Hnot. unfold is_visited.
    rewrite Hc'. simpl. destruct (visited c') eqn:Hv; [done|].
    exfalso. apply Hnot. split; [|done]. simpl. by rewrite Hc', <- Hv.
  - (* carve towards a random unvisited neighbour *)
    rewrite <- Hf.
    destruct (choice_Some (filter (λ nd, visited <$> get_cell m nd.1 = Some false)
                             (get_neighbors m c)) g)
      as ([next d] & g' & Hch & Hin); [by rewrite Hf|].
    rewrite Hch. simpl.
    apply list_elem_of_filter in Hin as [Hunv Hin]. simpl in Hunv.
    apply elem_of_get_neighbors in Hin as [Hn [c' Hc']].
    rewrite Hcoord in Hn. subst next.
    pose proof (get_cell_in_bounds _ _ _ Hc') as Hb.
    assert (¬ is_visited m (step_from cur d)) as Hnv
      by (unfold is_visited; rewrite Hunv; done).
    destruct (carve_inv_push m cur rest d Hinv Hb Hnv) as [Hinv' Hcount].
    assert (visited_count m < length (coords (width m) (height m)))%nat as Hlt.
    { unfold visited_count. eapply length_filter_lt; [|done]. by apply elem_of_coords. }
    destruct (IH (carve_step m cur d) (step_from cur d :: cur :: rest) g' Hinv')
      as (m' & g'' & Hrun & Hfin & Hw & Hh & Hs & Hp).
    { rewrite Hcount. simpl in *. lia. }
    exists m', g''. done.
Qed.
End Carve.

(** ** The grid before carving *)

Lemma fresh_grid_wf w h : grid_wf w h (fresh_grid w h).
Proof.
  unfold grid_wf, grid_coords, fresh_grid.
  rewrite <- list_fmap_compose. apply list_fmap_ext. intros _ y _. simpl.
  rewrite <- list_fmap_compose. by apply list_fmap_ext.
Qed.

Lemma fresh_grid_get w h p :
  in_bounds w h p = true → grid_get (fresh_grid w h) p = Some (new_cell p.1 p.2).
Proof.
  intros Hb. apply bool_decide_eq_true in Hb as [Hx Hy].
  unfold grid_get, fresh_grid, range. rewrite list_lookup_fmap.
  assert (Z.of_nat (Z.to_nat p.2) < h) as Hy' by lia.
  rewrite (lookup_seqZ_lt _ _ _ Hy'), Z2Nat.id by lia. simpl.
  rewrite list_lookup_fmap.
  assert (Z.of_nat (Z.to_nat p.1) < w) as Hx' by lia.
  by rewrite (lookup_seqZ_lt _ _ _ Hx'), Z2Nat.id by lia.
Qed.

Lemma filter_length_none {A} (P : A → Prop) `{!∀ x, Decision (P x)} (l : list A) :
  (∀ b, b ∈ l → ¬ P b) → length (filter P l) = 0%nat.
Proof.
  intros Hno. induction l as [|x l IH]; [done|]. rewrite filter_cons.
  destruct (decide (P x)) as [Hx|_]; [exfalso; apply (Hno x); [left|done]|].
  apply IH. intros b Hb. apply Hno. by right.
Qed.

Lemma filter_length_one {A} (P : A → Prop) `{!∀ x, Decision (P x)} (l : list A) a :
  NoDup l → a ∈ l → (∀ b, b ∈ l → (P b ↔ b = a)) → length (filter P l) = 1%nat.
Proof.
  intros Hnd Ha Hiff.
  assert (length (filter (λ _ : A, False) l) = 0%nat) as H0
    by (apply filter_length_none; tauto).
  rewrite <- H0. apply (filter_length_add _ _ _ a); try done.
  - tauto.
  - by apply Hiff.
  - intros b Hb Hne. rewrite Hiff by done. tauto.
Qed.

Lemma initial_maze_get w h s p :
  0 < w → 0 < h →
  get_cell (initial_maze w h s) p
  = if in_bounds w h p
    then Some (if decide (p = (0, 0)) then set_visited true (new_cell 0 0)
               else new_cell p.1 p.2)
    else None.
Proof.
  intros Hw Hh. unfold initial_maze.
  assert (in_bounds w h (0, 0) = true) as B0 by (apply bool_decide_eq_true; simpl; lia).
  rewrite (get_cell_with_grid_alter (mkMaze w h s (fresh_grid w h) (0, 0))) by done.
  unfold get_cell. simpl. destruct (decide ((0, 0) = p)) as [<-|Hne].
  - rewrite B0, fresh_grid_get by done. by rewrite decide_True.
  - destruct (in_bounds w h p) eqn:Hb; [|done].
    rewrite fresh_grid_get by done. by rewrite decide_False.
Qed.

Lemma initial_maze_inv w h s :
  0 < w → 0 < h → carve_inv (initial_maze w h s) [(0, 0)].
Proof.
  intros Hw Hh.
  assert (in_bounds w h (0, 0) = true) as B0 by (apply bool_decide_eq_true; simpl; lia).
  assert (∀ p d, ¬ is_open (initial_maze w h s) p d) as Hclosed.
  { intros p d. unfold is_open. rewrite initial_maze_get by done.
    destruct (in_bounds w h p); [|done]. case_decide; by destruct d. }
  assert (∀ p, is_visited (initial_maze w h s) p ↔ p = (0, 0)) as Hvis.
  { intros p. unfold is_visited. rewrite initial_maze_get by done.
    destruct (decide (p = (0, 0))) as [->|Hne]; [by rewrite B0|].
    destruct (in_bounds w h p); simpl; split; done. }
  assert (visited_count (initial_maze w h s) = 1%nat) as Hcount.
  { unfold visited_count. apply (filter_length_one _ _ (0, 0)).
    - apply NoDup_coords.
    - by apply elem_of_coords.
    - intros b _. apply Hvis. }
  split.
  - unfold initial_maze. simpl. apply grid_wf_alter; [done|]. apply fresh_grid_wf.
  - by apply Hvis.
  - intros p Hp. apply list_elem_of_singleton in Hp as ->. by apply Hvis.
  - intros p d Ho. by destruct (Hclosed p d).
  - intros p d Ho. by destruct (Hclosed p d).
  - intros p Hp. apply Hvis in Hp as ->. apply rtc_refl.
  - rewrite Hcount. unfold open_sides. rewrite filter_length_none; [done|].
    intros [p d] _. apply Hclosed.
  - rewrite Hcount. unfold removed_walls. rewrite filter_length_none; [done|].
    intros [p d] _. apply Hclosed.
  - intros p d Hp Hnot. apply Hvis in Hp as ->. set_solver.
  - intros p. unfold is_decision_node. rewrite initial_maze_get by done.
    destruct (in_bounds w h p); [|done]. by case_decide.
Qed.

(** When the loop has ended, every cell has been visited. *)
Lemma carve_inv_all_visited m :
  carve_inv m [] → ∀ p, in_bounds (width m) (height m) p = true → is_visited m p.
Proof.
  intros Hinv.
  assert (∀ n : nat, in_bounds (width m) (height m) (Z.of_nat n, 0) = true →
                     is_visited m (Z.of_nat n, 0)) as Hrow.
  { induction n as [|n IH]; intros Hb; [apply (inv_origin _ _ Hinv)|].
    assert (in_bounds (width m) (height m) (Z.of_nat n, 0) = true) as Hb'.
    { apply bool_decide_eq_true in Hb. apply bool_decide_eq_true. simpl in *. lia. }
    replace (Z.of_nat (S n), 0) with (step_from (Z.of_nat n, 0) east)
      by (unfold step_from; simpl; f_equal; lia).
    apply (inv_done _ _ Hinv); [by apply IH|apply not_elem_of_nil|].
    replace (step_from (Z.of_nat n, 0) east) with (Z.of_nat (S n), 0)
      by (unfold step_from; simpl; f_equal; lia). done. }
  assert (∀ (k : nat) x, in_bounds (width m) (height m) (x, Z.of_nat k) = true →
                         is_visited m (x, Z.of_nat k)) as Hcol.
  { induction k as [|k IH]; intros x Hb.
    - apply bool_decide_eq_true in Hb as Hb'. simpl in Hb'.
      replace x with (Z.of_nat (Z.to_nat x)) in * by lia. by apply Hrow.
    - assert (in_bounds (width m) (height m) (x, Z.of_nat k) = true) as Hb'.
      { apply bool_decide_eq_true in Hb. apply bool_decide_eq_true. simpl in *. lia. }
      replace (x, Z.of_nat (S k)) with (step_from (x, Z.of_nat k) south)
        by (unfold step_from; simpl; f_equal; lia).
      apply (inv_done _ _ Hinv); [by apply IH|apply not_elem_of_nil|].
      replace (step_from (x, Z.of_nat k) south) with (x, Z.of_nat (S k))
        by (unfold step_from; simpl; f_equal; lia). done. }
  intros [x y] Hb. apply bool_decide_eq_true in Hb as Hb'. simpl in Hb'.
  replace y with (Z.of_nat (Z.to_nat y)) in * by lia. by apply Hcol.
Qed.

Lemma filter_length_all {A} (P : A → Prop) `{!∀ x, Decision (P x)} (l : list A) :
  (∀ b, b ∈ l → P b) → length (filter P l) = length l.
Proof.
  intros Hall. induction l as [|x l IH]; [done|]. rewrite filter_cons.
  destruct (decide (P x)) as [_|Hx]; [|exfalso; apply Hx, Hall; left].
  simpl. f_equal. apply IH. intros b Hb. apply Hall. by right.
Qed.

Lemma carve_inv_visited_count m :
  carve_inv m [] → visited_count m = (Z.to_nat (width m) * Z.to_nat (height m))%nat.
Proof.
  intros Hinv. unfold visited_count. rewrite <- length_coords.
  apply filter_length_all. intros p Hp. apply carve_inv_all_visited; [done|].
  by apply elem_of_coords.
Qed.

(** ** Marking decision nodes *)

Lemma mark_all_wf w h L gr : grid_wf w h gr → grid_wf w h (mark_all L gr).
Proof.
  revert gr. induction L as [|p L IH]; intros gr Hwf; [done|].
  simpl. apply IH. by apply grid_wf_alter.
Qed.

Lemma mark_all_get m L q :
  (∀ p, p ∈ L → in_bounds (width m) (height m) p = true) →
  get_cell (with_grid m (mark_all L (grid m))) q
  = if decide (q ∈ L) then set_decision_node true <$> get_cell m q else get_cell m q.
Proof.
  revert m. induction L as [|p L IH]; intros m Hb.
  { rewrite decide_False by apply not_elem_of_nil. done. }
  set (m1 := with_grid m (grid_alter (set_decision_node true) p (grid m))).
  change (with_grid m (mark_all (p :: L) (grid m)))
    with (with_grid m1 (mark_all L (grid m1))).
  rewrite IH by (intros p' Hp'; apply Hb; by right).
  unfold m1. rewrite get_cell_with_grid_alter by (apply Hb; left).
  destruct (decide (p = q)) as [<-|Hne].
  - rewrite (decide_True (P := p ∈ p :: L)) by left.
    case_decide; [|done]. by destruct (get_cell m p).
  - destruct (decide (q ∈ L)) as [Hin|Hnin].
    + by rewrite decide_True by (by right).
    + rewrite decide_False; [done|]. intros [->|?]%elem_of_cons; done.
Qed.

Lemma same_walls_open m m' p d : same_walls m m' → is_open m' p d ↔ is_open m p d.
Proof.
  intros (_ & _ & Hw). unfold is_open. specialize (Hw p).
  destruct (get_cell m' p), (get_cell m p); simpl in *; try done.
  by injection Hw as ->.
Qed.

Lemma same_walls_Some m m' p :
  same_walls m m' → is_Some (get_cell m' p) ↔ is_Some (get_cell m p).
Proof.
  intros (_ & _ & Hw). specialize (Hw p).
  destruct (get_cell m' p), (get_cell m p); simpl in *; try done;
    split; intros [? ?]; eauto; done.
Qed.

Lemma same_walls_reachable m m' p q :
  same_walls m m' → reachable m p q → reachable m' p q.
Proof.
  intros Hs. apply rtc_subrel. intros a b. rewrite !passage_open.
  intros (d & Ho & -> & Hq). exists d. split; [by apply (same_walls_open m m')|].
  split; [done|]. by apply (same_walls_Some m m').
Qed.

Lemma same_walls_removed m m' : same_walls m m' → removed_walls m' = removed_walls m.
Proof.
  intros Hs. unfold removed_walls. pose proof Hs as (-> & -> & _).
  apply filter_length_ext. intros [p d] _. simpl. symmetry.
  by apply same_walls_open.
Qed.

Lemma same_walls_open_sides m m' : same_walls m m' → open_sides m' = open_sides m.
Proof.
  intros Hs. unfold open_sides. pose proof Hs as (-> & -> & _).
  apply filter_length_ext. intros [p d] _. simpl. symmetry.
  by apply same_walls_open.
Qed.

Lemma same_walls_mark m L :
  (∀ p, p ∈ L → in_bounds (width m) (height m) p = true) →
  same_walls m (with_grid m (mark_all L (grid m))).
Proof.
  intros Hb. split; [done|]. split; [done|]. intros p.
  rewrite mark_all_get by done. case_decide; [|done]. by destruct (get_cell m p).
Qed.

Lemma mark_all_decision m L q :
  (∀ p, p ∈ L → in_bounds (width m) (height m) p = true) →
  grid_wf (width m) (height m) (grid m) →
  is_decision_node (with_grid m (mark_all L (grid m))) q
  ↔ q ∈ L ∨ is_decision_node m q.
Proof.
  intros Hb Hwf. unfold is_decision_node. rewrite mark_all_get by done.
  destruct (decide (q ∈ L)) as [Hin|Hnin]; [|tauto].
  destruct (get_cell_wf m q Hwf (Hb q Hin)) as (c & -> & _). simpl. tauto.
Qed.

Lemma openings_at_count m p c :
  get_cell m p = Some c → opening_count c = Z.of_nat (openings_at m p).
Proof.
  intros Hc. unfold opening_count, openings_at, open_directions. f_equal.
  apply filter_length_ext. intros d _. unfold is_open. rewrite Hc. simpl.
  split; [by intros [= ->]|by intros ->].
Qed.

Lemma same_walls_openings m m' p : same_walls m m' → openings_at m' p = openings_at m p.
Proof.
  intros Hs. unfold openings_at. apply filter_length_ext. intros d _.
  symmetry. by apply same_walls_open.
Qed.

Section MarkPass.
Context `{RandomSource}.
Context (w h s : Z).

Lemma mark_pass_spec ps : ∀ gr dn g,
  grid_wf w h gr →
  (∀ p, p ∈ ps → in_bounds w h p = true) →
  ∃ marked g',
    mark_pass ps gr dn g = Some (mark_all marked gr, dn ++ marked, g')
    ∧ sublist marked ps
    ∧ ∀ p, p ∈ marked → (3 ≤ openings_at (mkMaze w h s gr (0%Z, 0%Z)) p)%nat.
Proof.
  induction ps as [|p ps IH]; intros gr dn g Hwf Hb.
  { exists [], g. rewrite app_nil_r. split; [done|]. split; [done|].
    intros p Hp. by apply elem_of_nil in Hp. }
  assert (in_bounds w h p = true) as Hp by (apply Hb; left).
  assert (∀ q, q ∈ ps → in_bounds w h q = true) as Hb' by (intros q Hq; apply Hb; by right).
  destruct (grid_wf_get _ _ _ _ Hwf Hp) as (cell & Hcell & _).
  simpl. rewrite Hcell. simpl.
  assert (get_cell (mkMaze w h s gr (0, 0)) p = Some cell) as Hget
    by (unfold get_cell; simpl; by rewrite Hp).
  destruct (bool_decide (3 ≤ opening_count cell)) eqn:Hoc.
  - destruct (random_unit g) as [r g1]. destruct (Qlt_le_dec r (3 # 10)) as [Hr|Hr].
    + destruct (IH (grid_alter (set_decision_node true) p gr) (dn ++ [p]) g1)
        as (marked & g' & Hrun & Hsub & Hall); [by apply grid_wf_alter|done|].
      exists (p :: marked), g'. rewrite Hrun. split.
      { simpl. by rewrite <- app_assoc. }
      split; [by constructor|].
      intros q [->|Hq]%elem_of_cons.
      * apply bool_decide_eq_true in Hoc.
        rewrite (openings_at_count _ _ _ Hget) in Hoc. lia.
      * rewrite <- (same_walls_openings (mkMaze w h s gr (0, 0))
                     (mkMaze w h s (grid_alter (set_decision_node true) p gr) (0, 0)));
          [by apply Hall|].
        apply (same_walls_mark (mkMaze w h s gr (0, 0)) [p]).
        simpl. by intros ? ->%list_elem_of_singleton.
    + destruct (IH gr dn g1) as (marked & g' & Hrun & Hsub & Hall); [done..|].
      exists marked, g'. rewrite Hrun. split; [done|]. split; [by constructor|done].
  - destruct (IH gr dn g) as (marked & g' & Hrun & Hsub & Hall); [done..|].
    exists marked, g'. rewrite Hrun. split; [done|]. split; [by constructor|done].
Qed.
End MarkPass.

Lemma filter_ext_in {A} (P Q : A → Prop) `{!∀ x, Decision (P x)}
    `{!∀ x, Decision (Q x)} (l : list A) :
  (∀ b, b ∈ l → (P b ↔ Q b)) → filter P l = filter Q l.
Proof.
  induction l as [|x l IH]; intros Hext; [done|].
  rewrite !filter_cons.
  assert (P x ↔ Q x) as Hx by (apply Hext; left).
  rewrite IH by (intros b Hb; apply Hext; by right).
  destruct (decide (P x)), (decide (Q x)); tauto || done.
Qed.

(** ** What [generate_maze] computes *)

Section GenerateMaze.
Context `{RandomSource}.

(** The stages of [generate_maze]: the carved maze [m1], the cells
    [marked] by the probabilistic pass, and the cells that [fill] the
    deficit. *)
Lemma generate_maze_stages w h sd g0 :
  0 < w → 0 < h →
  ∃ m1 marked fill g',
    generate_maze w h sd g0
    = Some (with_grid m1 (mark_all (marked ++ fill) (grid m1)), g')
    ∧ carve_inv m1 []
    ∧ width m1 = w ∧ height m1 = h
    ∧ seed m1 = seed_used sd g0 ∧ start_pos m1 = (0, 0)
    ∧ sublist marked (coords w h)
    ∧ (∀ p, p ∈ marked → (3 ≤ openings_at m1 p)%nat)
    ∧ ((5 ≤ length marked)%nat ∧ fill = []
       ∨ (length marked < 5)%nat
         ∧ ∃ cands,
             cands ≡ₚ filter (λ p, (2 ≤ openings_at m1 p)%nat ∧ p ∉ marked) (coords w h)
             ∧ fill = take (5 - length marked) cands).
Proof.
  intros Hw Hh. unfold generate_maze.
  set (s := seed_used sd g0).
  assert (∃ g0', match sd with Some s => (s, g0) | None => randint 1 999999 g0 end
                 = (s, g0')) as [g0' ->].
  { unfold s, seed_used. destruct sd; [by eexists|].
    destruct (randint 1 999999 g0); by eexists. }
  assert (in_bounds w h (0, 0) = true) as B0 by (apply bool_decide_eq_true; simpl; lia).
  change ((λ y, (λ x, new_cell x y) <$> range w) <$> range h) with (fresh_grid w h).
  rewrite fresh_grid_get by done. cbn [mbind option_bind].
  change (with_grid (mkMaze w h s (fresh_grid w h) (0, 0))
            (grid_alter (set_visited true) (0, 0) (fresh_grid w h)))
    with (initial_maze w h s).
  destruct (carve_spec (2 * Z.to_nat w * Z.to_nat h) (initial_maze w h s) [(0, 0)]
              (rng_seed s) (initial_maze_inv w h s Hw Hh))
    as (m1 & g1 & Hcarve & Hinv & Hw1 & Hh1 & Hs1 & Hp1).
  { pose proof (inv_walls _ _ (initial_maze_inv w h s Hw Hh)) as Hv.
    simpl. rewrite length_coords.
    assert (1 ≤ Z.to_nat w * Z.to_nat h)%nat by nia. lia. }
  rewrite Hcarve. simpl in Hw1, Hh1, Hs1, Hp1. cbn [mbind option_bind].
  destruct (mark_pass_spec w h s (coords w h) (grid m1) [] g1)
    as (marked & g2 & Hmark & Hsub & H3).
  { rewrite <- Hw1, <- Hh1. apply (inv_wf _ _ Hinv). }
  { intros p. apply elem_of_coords. }
  rewrite Hmark. cbn [mbind option_bind]. change ([] ++ marked) with marked.
  assert (mkMaze w h s (grid m1) (0, 0) = m1) as Hm1.
  { destruct m1. simpl in *. congruence. }
  rewrite Hm1 in H3.
  assert (∀ gr, mkMaze w h s gr (0, 0) = with_grid m1 gr) as Hmk.
  { intros gr. unfold with_grid. congruence. }
  destruct (bool_decide (Z.of_nat (length marked) < 5)) eqn:Hlen.
  - apply bool_decide_eq_true in Hlen.
    destruct (shuffle (filter (λ p, is_candidate (mark_all marked (grid m1)) p = true)
                         (coords w h)) g2) as [cands g3] eqn:Hsh.
    exists m1, marked, (take (Z.to_nat (5 - Z.of_nat (length marked))) cands), g3.
    split.
    { cbv beta iota zeta. rewrite Hmk. unfold mark_all. by rewrite foldl_app. }
    do 7 (split; [done|]). right. split; [lia|].
    exists cands. split; [|f_equal; lia].
    pose proof (shuffle_perm _ (filter (λ p, is_candidate (mark_all marked (grid m1)) p = true)
                         (coords w h)) g2) as Hperm.
    rewrite Hsh in Hperm. simpl in Hperm. rewrite Hperm.
    rewrite (filter_ext_in _ (λ p, (2 ≤ openings_at m1 p)%nat ∧ p ∉ marked)); [done|].
    intros p Hp. apply elem_of_coords in Hp.
    assert (∀ q, q ∈ marked → in_bounds (width m1) (height m1) q = true) as Hbm.
    { intros q Hq. rewrite Hw1, Hh1. apply elem_of_coords.
      by eapply elem_of_sublist. }
    pose proof (mark_all_get m1 marked p Hbm) as Hget.
    unfold get_cell in Hget at 1. simpl in Hget. rewrite Hw1, Hh1, Hp in Hget.
    unfold is_candidate. rewrite Hget.
    destruct (get_cell_wf m1 p (inv_wf _ _ Hinv)) as (c & Hc & _);
      [by rewrite Hw1, Hh1|].
    pose proof (inv_unmarked _ _ Hinv p) as Hun. unfold is_decision_node in Hun.
    rewrite Hc in *. simpl in Hun.
    pose proof (openings_at_count _ _ _ Hc) as Hoc.
    destruct (decide (p ∈ marked)) as [Hin|Hnin]; simpl.
    + rewrite andb_false_r. split; [done|]. tauto.
    + rewrite andb_true_iff, bool_decide_eq_true, negb_true_iff.
      destruct (decision_node c); [done|].
      split; (intros [? _]; split; [lia|done]).
  - apply bool_decide_eq_false in Hlen.
    exists m1, marked, [], g2. split.
    { cbv beta iota zeta. by rewrite Hmk, app_nil_r. }
    do 7 (split; [done|]). left. split; [lia|done].
Qed.

Lemma generate_maze_Some_pos w h sd g0 m g' :
  generate_maze w h sd g0 = Some (m, g') → 0 < w ∧ 0 < h.
Proof.
  unfold generate_maze.
  destruct (match sd with Some s => (s, g0) | None => randint 1 999999 g0 end) as [s g].
  destruct (grid_get _ (0, 0)) as [c|] eqn:Hc;
    [|intros Heq; cbn [mbind option_bind] in Heq; done].
  intros _.
  unfold grid_get, range in Hc. simpl in Hc.
  change (Z.to_nat 0) with 0%nat in Hc.
  rewrite list_lookup_fmap in Hc.
  destruct (seqZ 0 h !! 0%nat) as [y|] eqn:Hy; [|by simpl in Hc].
  apply lookup_seqZ in Hy as [_ Hy]. simpl in Hc.
  rewrite list_lookup_fmap in Hc.
  destruct (seqZ 0 w !! 0%nat) as [x|] eqn:Hx; [|by simpl in Hc].
  apply lookup_seqZ in Hx as [_ Hx]. lia.
Qed.

(** [generate_maze] returns a maze exactly when both dimensions are
    positive. *)
Lemma generate_maze_total w h sd g0 :
  0 < w → 0 < h → is_Some (generate_maze w h sd g0).
Proof.
  intros Hw Hh.
  destruct (generate_maze_stages w h sd g0 Hw Hh) as (m1 & ? & ? & g' & -> & _).
  eauto.
Qed.
End GenerateMaze.

(** ** Counting open sides cell by cell *)

Lemma filter_fmap_length {A B} (P : B → Prop) `{!∀ x, Decision (P x)} (f : A → B)
    (l : list A) :
  length (filter P (f <$> l)) = length (filter (λ x, P (f x)) l).
Proof.
  induction l as [|x l IH]; [done|]. rewrite fmap_cons, !filter_cons.
  destruct (decide (P (f x))); simpl; by rewrite IH.
Qed.

Lemma open_sides_sum m :
  open_sides m = sum_list_with (openings_at m) (coords (width m) (height m)).
Proof.
  unfold open_sides, all_sides.
  induction (coords (width m) (height m)) as [|p l IH]; [done|].
  change ((p :: l) ≫= λ p, (λ d, (p, d)) <$> directions)
    with (((λ d, (p, d)) <$> directions) ++ (l ≫= λ p, (λ d, (p, d)) <$> directions)).
  rewrite filter_app, length_app, IH, filter_fmap_length. done.
Qed.

Lemma openings_at_le m p : (openings_at m p ≤ 4)%nat.
Proof. unfold openings_at. apply (length_filter _ directions). Qed.

Lemma sum_openings_bound (f : Z * Z → nat) (l : list (Z * Z)) :
  (∀ p, f p ≤ 4)%nat →
  (sum_list_with f l ≤ 3 * length (filter (λ p, 2 ≤ f p)%nat l) + length l)%nat.
Proof.
  intros Hf. induction l as [|p l IH]; [done|].
  rewrite filter_cons. specialize (Hf p).
  destruct (decide (2 ≤ f p)%nat); simpl in *; lia.
Qed.

Lemma filter_length_split {A} (P Q : A → Prop) `{!∀ x, Decision (P x)}
    `{!∀ x, Decision (Q x)} (l : list A) :
  (length (filter P l)
   ≤ length (filter (λ x, P x ∧ ¬ Q x) l) + length (filter Q l))%nat.
Proof.
  induction l as [|x l IH]; [done|]. rewrite !filter_cons.
  destruct (decide (P x)), (decide (Q x)), (decide (P x ∧ ¬ Q x)); simpl; tauto || lia.
Qed.

Lemma filter_elem_length {A} `{EqDecision A} (k l : list A) :
  NoDup l → (length (filter (λ x, x ∈ k) l) ≤ length k)%nat.
Proof.
  intros Hnd. apply submseteq_length, NoDup_submseteq.
  - by apply NoDup_filter.
  - intros x Hx. by apply list_elem_of_filter in Hx as [? _].
Qed.

Section MazeClaims.
Context `{RandomSource}.

(** The maze that [generate_maze] returns is the carved maze [m1] with
    the cells of a duplicate-free list [L] marked as decision nodes, and
    [L] has at least [min 5 (number of junctions)] elements. *)
Lemma generate_maze_result w h sd g0 m g' :
  generate_maze w h sd g0 = Some (m, g') →
  ∃ m1 L,
    m = with_grid m1 (mark_all L (grid m1))
    ∧ carve_inv m1 [] ∧ width m1 = w ∧ height m1 = h
    ∧ (∀ p, p ∈ L → in_bounds w h p = true)
    ∧ NoDup L
    ∧ (5 `min` length (junctions m1) ≤ length L)%nat.
Proof.
  intros Hgen. destruct (generate_maze_Some_pos _ _ _ _ _ _ Hgen) as [Hw Hh].
  destruct (generate_maze_stages w h sd g0 Hw Hh)
    as (m1 & marked & fill & g'' & Hrun & Hinv & Hw1 & Hh1 & _ & _ & Hsub & _ & Hfill).
  rewrite Hrun in Hgen. injection Hgen as <- <-.
  exists m1, (marked ++ fill). split; [done|]. do 3 (split; [done|]).
  assert (NoDup marked) as Hnd by (eapply sublist_NoDup; [apply NoDup_coords|done]).
  assert (∀ p, p ∈ marked → in_bounds w h p = true) as Hbm.
  { intros p Hp. apply elem_of_coords. by eapply elem_of_sublist. }
  destruct Hfill as [[Hlen ->]|[Hlen (cands & Hperm & ->)]].
  { rewrite app_nil_r. do 2 (split; [done|]). lia. }
  set (C := filter (λ p, (2 ≤ openings_at m1 p)%nat ∧ p ∉ marked) (coords w h)) in *.
  assert (NoDup cands) as Hndc.
  { rewrite Hperm. apply NoDup_filter, NoDup_coords. }
  assert (∀ p, p ∈ cands → p ∈ coords w h ∧ p ∉ marked) as Hc.
  { intros p Hp. rewrite Hperm in Hp. apply list_elem_of_filter in Hp. tauto. }
  assert (∀ p, p ∈ take (5 - length marked) cands → p ∈ cands) as Htake.
  { intros p Hp. eapply elem_of_sublist; [done|apply sublist_take]. }
  split; [|split].
  - intros p [Hp|Hp]%elem_of_app; [by apply Hbm|].
    apply elem_of_coords. by apply Hc, Htake.
  - apply NoDup_app. split; [done|]. split.
    + intros p Hp Hp'. by apply (Hc p (Htake p Hp')).
    + eapply sublist_NoDup; [done|apply sublist_take].
  - rewrite length_app, length_take, (Permutation_length Hperm).
    pose proof (filter_length_split (λ p, (2 ≤ openings_at m1 p)%nat)
                  (λ p, p ∈ marked) (coords w h)) as Hsplit.
    pose proof (filter_elem_length marked (coords w h) (NoDup_coords w h)) as Hle.
    unfold junctions. rewrite Hw1, Hh1.
    change (length (filter _ (coords w h)) + length (filter _ (coords w h)))%nat
      with (length C + length (filter (λ p, p ∈ marked) (coords w h)))%nat in Hsplit.
    lia.
Qed.

(** A carved maze with at least 17 cells has at least 5 junctions: its
    [2 * (w * h - 1)] open sides are spread over cells with at most four
    sides each. *)
Lemma carved_junctions m :
  carve_inv m [] → 17 ≤ width m * height m → (5 ≤ length (junctions m))%nat.
Proof.
  intros Hinv Hsize.
  pose proof (inv_sides _ _ Hinv) as Hsides.
  rewrite (carve_inv_visited_count _ Hinv), open_sides_sum in Hsides.
  pose proof (sum_openings_bound (openings_at m) (coords (width m) (height m))
                (openings_at_le m)) as Hbound.
  rewrite length_coords in Hbound. unfold junctions.
  assert (17 ≤ Z.to_nat (width m) * Z.to_nat (height m))%nat by nia.
  lia.
Qed.

(** C3. Two runs of [generate_maze] with the same width, height and seed
    return identical mazes: the same wall layout in every cell and the same
    decision-node coordinates (indeed the same maze object), whatever the
    state of the global generator was when each run began. *)
Theorem generate_maze_deterministic w h s g0 g1 m m' ga gb :
  generate_maze w h (Some s) g0 = Some (m, ga) →
  generate_maze w h (Some s) g1 = Some (m', gb) →
  (∀ p, walls <$> get_cell m p = walls <$> get_cell m' p)
  ∧ decision_nodes m = decision_nodes m'
  ∧ m = m'.
Proof.
  intros Hrun Hrun'.
  assert (generate_maze w h (Some s) g0 = generate_maze w h (Some s) g1) as Hsame.
  { (* the seeded run never reads the state it was entered with *)
    unfold generate_maze. reflexivity. }
  rewrite Hsame, Hrun' in Hrun. injection Hrun as -> _. done.
Qed.

(** C4. In every maze that [generate_maze] returns, every cell is
    reachable from the start cell (0,0) through open walls, and exactly
    [w * h - 1] internal walls have been removed. *)
Theorem generate_maze_spanning_tree w h sd g0 m g' :
  generate_maze w h sd g0 = Some (m, g') →
  (∀ p, in_bounds w h p = true → reachable m (0, 0) p)
  ∧ Z.of_nat (removed_walls m) = w * h - 1.
Proof.
  intros Hgen. destruct (generate_maze_Some_pos _ _ _ _ _ _ Hgen) as [Hw Hh].
  destruct (generate_maze_result _ _ _ _ _ _ Hgen)
    as (m1 & L & -> & Hinv & Hw1 & Hh1 & Hb & _ & _).
  assert (same_walls m1 (with_grid m1 (mark_all L (grid m1)))) as Hsame.
  { apply same_walls_mark. by rewrite Hw1, Hh1. }
  split.
  - intros p Hp. apply (same_walls_reachable m1); [done|].
    apply (inv_reach _ _ Hinv), carve_inv_all_visited; [done|by rewrite Hw1, Hh1].
  - rewrite (same_walls_removed m1) by done.
    pose proof (inv_walls _ _ Hinv) as Hwalls.
    rewrite (carve_inv_visited_count _ Hinv), Hw1, Hh1 in Hwalls. nia.
Qed.

(** C9, as the code has it.  The decision nodes of a generated maze number
    at least [min 5 j], where [j] is the number of cells with at least two
    open sides; they number at least 5 whenever the maze has at least 17
    cells. *)
Theorem generate_maze_decision_nodes w h sd g0 m g' :
  generate_maze w h sd g0 = Some (m, g') →
  (5 `min` length (junctions m) ≤ length (decision_nodes m))%nat
  ∧ (17 ≤ w * h → (5 ≤ length (decision_nodes m))%nat).
Proof.
  intros Hgen.
  destruct (generate_maze_result _ _ _ _ _ _ Hgen)
    as (m1 & L & -> & Hinv & Hw1 & Hh1 & Hb & Hnd & Hlen).
  set (m := with_grid m1 (mark_all L (grid m1))).
  assert (same_walls m1 m) as Hsame.
  { apply same_walls_mark. by rewrite Hw1, Hh1. }
  assert (junctions m = junctions m1) as Hj.
  { unfold junctions. apply filter_ext_in. intros p _.
    by rewrite (same_walls_openings m1 m). }
  assert (length L ≤ length (decision_nodes m))%nat as HL.
  { apply submseteq_length, NoDup_submseteq; [done|].
    intros p Hp. apply list_elem_of_filter. split.
    - apply mark_all_decision; [by rewrite Hw1, Hh1|apply (inv_wf _ _ Hinv)|by left].
    - apply elem_of_coords. simpl. rewrite Hw1, Hh1. by apply Hb. }
  rewrite Hj. split; [lia|]. intros Hsize.
  pose proof (carved_junctions m1 Hinv) as Hfive.
  rewrite Hw1, Hh1 in Hfive. specialize (Hfive Hsize). lia.
Qed.
End MazeClaims.

(** The claims at concrete inputs, on the generator [Lcg.source]. *)

Lemma generate_maze_deterministic_witness :
  ∃ m m' ga gb,
    @generate_maze Lcg.source 3 3 (Some 42) 0 = Some (m, ga)
    ∧ @generate_maze Lcg.source 3 3 (Some 42) 987654321 = Some (m', gb)
    ∧ decision_nodes m = decision_nodes m' ∧ m = m'.
Proof.
  destruct (@generate_maze Lcg.source 3 3 (Some 42) 0) as [[m ga]|] eqn:E;
    [|by vm_compute in E].
  destruct (@generate_maze Lcg.source 3 3 (Some 42) 987654321) as [[m' gb]|] eqn:E';
    [|by vm_compute in E'].
  exists m, m', ga, gb. do 2 (split; [done|]).
  exact (proj2 (generate_maze_deterministic (H := Lcg.source) 3 3 42 0 987654321
                  m m' ga gb E E')).
Defined.

Lemma generate_maze_spanning_tree_witness :
  ∃ m g', @generate_maze Lcg.source 3 3 (Some 42) 0 = Some (m, g')
          ∧ (∀ p, in_bounds 3 3 p = true → reachable m (0, 0) p)
          ∧ Z.of_nat (removed_walls m) = 3 * 3 - 1.
Proof.
  destruct (@generate_maze Lcg.source 3 3 (Some 42) 0) as [[m g']|] eqn:E;
    [|by vm_compute in E].
  exists m, g'. split; [done|].
  exact (generate_maze_spanning_tree (H := Lcg.source) 3 3 (Some 42) 0 m g' E).
Defined.

Lemma generate_maze_decision_nodes_witness :
  ∃ m g', @generate_maze Lcg.source 5 4 (Some 7) 0 = Some (m, g')
          ∧ 17 ≤ 5 * 4
          ∧ (5 ≤ length (decision_nodes m))%nat.
Proof.
  destruct (@generate_maze Lcg.source 5 4 (Some 7) 0) as [[m g']|] eqn:E;
    [|by vm_compute in E].
  exists m, g'. split; [done|]. split; [lia|].
  apply (generate_maze_decision_nodes (H := Lcg.source) 5 4 (Some 7) 0 m g' E). lia.
Defined.

(** C9 as stated fails on small mazes: a 2-by-2 maze has four cells, and a
    6-by-1 corridor has only four cells with two open sides. *)
Lemma generate_maze_few_decision_nodes :
  ∃ m g', @generate_maze Lcg.source 2 2 (Some 42) 0 = Some (m, g')
          ∧ ¬ (5 ≤ length (decision_nodes m))%nat.
Proof. eexists _, _. split; [vm_compute; reflexivity|]. vm_compute. lia. Qed.

Example generate_maze_corridor :
  ∃ m g', @generate_maze Lcg.source 6 1 (Some 42) 0 = Some (m, g')
          ∧ length (decision_nodes m) = 4%nat.
Proof. eexists _, _. split; [vm_compute; reflexivity|]. vm_compute. reflexivity. Qed.

(** Without a seed the result depends on the state of the global
    generator. *)
Example generate_maze_unseeded :
  @generate_maze Lcg.source 3 3 None 0 ≠ @generate_maze Lcg.source 3 3 None 1.
Proof. vm_compute. discriminate. Qed.

(** ** Time-gated regeneration *)





(** ** Age-gated grants *)

Lemma while_loop_ind {S : Type} (P : S → Prop) fuel cond body (s : S) :
  P s → (∀ s, P s → cond s = true → P (body s)) → P (while_loop fuel cond body s).
Proof.
  intros Hs Hstep. revert s Hs. induction fuel as [|fuel IH]; intros s Hs; [done|].
  simpl. destruct (cond s) eqn:Hc; [|done]. by apply IH, Hstep.
Qed.

(** The loops over age thresholds run to completion: when they stop, their
    condition is false. *)
Lemma age_loop_exit {S : Type} (f : S → S) (current_age threshold : Z) :
  0 < threshold →
  ∀ fuel (s : S) (last_age : Z),
    (Z.to_nat ((current_age - last_age) / threshold) ≤ fuel)%nat →
    bool_decide ((while_loop fuel (λ st, bool_decide (st.2 + threshold ≤ current_age))
                    (λ st, (f st.1, st.2 + threshold)) (s, last_age)).2
                 + threshold ≤ current_age) = false.
Proof.
  intros Hpos. induction fuel as [|fuel IH]; intros s last_age Hfuel.
  - simpl. apply bool_decide_eq_false. intros Hle.
    assert (1 ≤ (current_age - last_age) / threshold)
      by (apply Z.div_le_lower_bound; lia). lia.
  - simpl. destruct (bool_decide (last_age + threshold ≤ current_age)) eqn:Hc; [|done].
    apply bool_decide_eq_true in Hc. apply IH.
    replace (current_age - (last_age + threshold))
      with ((current_age - last_age) + (-1) * threshold) by lia.
    rewrite Z.div_add by lia.
    assert (1 ≤ (current_age - last_age) / threshold)
      by (apply Z.div_le_lower_bound; lia). lia.
Qed.

Lemma _grant_shield_bonus_if_needed_eq s :
  ∃ sc la,
    _grant_shield_bonus_if_needed s
    = with_shield_last_age (Some la) (with_shield_charges sc s)
    ∧ (sc = shield_charges s ∨ sc = Some 1).
Proof.
  unfold _grant_shield_bonus_if_needed.
  match goal with |- context [while_loop ?n ?c ?b ?i] =>
    assert (∃ sc, (while_loop n c b i).1 = with_shield_charges sc s
                  ∧ (sc = shield_charges s ∨ sc = Some 1)) as Hloop
  end.
  { apply while_loop_ind.
    - exists (shield_charges s). split; [by destruct s|by left].
    - intros [s1 la] (sc & Hs1 & Hsc) _. simpl in *. subst s1.
      eexists. split; [reflexivity|]. right. f_equal. lia. }
  destruct (while_loop _ _ _ _) as [s1 la]. destruct Hloop as (sc & Hs1 & Hsc).
  simpl in Hs1. subst s1. by exists sc, la.
Qed.

Lemma _grant_escape_by_age_eq s :
  ∃ ec la,
    _grant_escape_by_age s
    = with_hero_escape_last_age la (with_hero_escape_charges ec s).
Proof.
  unfold _grant_escape_by_age.
  match goal with |- context [while_loop ?n ?c ?b ?i] =>
    assert (∃ ec, (while_loop n c b i).1 = with_hero_escape_charges ec s) as Hloop
  end.
  { apply while_loop_ind.
    - exists (hero_escape_charges s). by destruct s.
    - intros [s1 la] (ec & Hs1) _. simpl in *. subst s1. by eexists. }
  destruct (while_loop _ _ _ _) as [s1 la]. destruct Hloop as (ec & Hs1).
  simpl in Hs1. subst s1. by exists ec, la.
Qed.

Lemma _grant_jump_bonus_if_needed_eq start_age s :
  ∃ jc jb,
    _grant_jump_bonus_if_needed start_age s
    = with_jump_bonus_awarded jb (with_jump_charges jc s).
Proof.
  unfold _grant_jump_bonus_if_needed. case_bool_decide.
  - by eexists _, _.
  - exists (jump_charges s), (jump_bonus_awarded s). by destruct s.
Qed.

(** ** The shield *)

Lemma _sync_shield_state_charges now s :
  ∃ n, shield_charges (_sync_shield_state now s) = Some n ∧ 1 ≤ n
       ∧ (shield_charges s = Some 0 → n = 1).
Proof.
  unfold _sync_shield_state.
  match goal with |- context [_grant_shield_bonus_if_needed ?s4] =>
    assert (∃ n, shield_charges s4 = Some n ∧ 1 ≤ n
                 ∧ (shield_charges s = Some 0 → n = 1)) as (n & Hn & Hle & H0);
    [|destruct (_grant_shield_bonus_if_needed_eq s4) as (sc & la & -> & [->| ->])]
  end.
  - exists (Z.max 1 (default 1 (shield_charges s))). split; [|split].
    + destruct s as [????????????????????????????????[sc|]??????]; simpl;
        repeat case_match; reflexivity.
    + lia.
    + intros E. rewrite E. simpl. lia.
  - by exists n.
  - exists 1. split; [done|]. split; [lia|done].
Qed.

(** ** What the passes leave alone *)

Lemma replenish_vitals a now s : vitals (replenish a now s) = vitals s.
Proof.
  destruct a; unfold replenish, _replenish_ally_jump_charges, _replenish_freeze_charges,
      _replenish_expand_charges, _replenish_dissolve_charges, _replenish_lift_charges,
      _replenish_blink_charges, _replenish_trap_charges;
    repeat case_match; done.
Qed.

Lemma replenish_decisions a now s : decisions (replenish a now s) = decisions s.
Proof.
  destruct a; unfold replenish, _replenish_ally_jump_charges, _replenish_freeze_charges,
      _replenish_expand_charges, _replenish_dissolve_charges, _replenish_lift_charges,
      _replenish_blink_charges, _replenish_trap_charges;
    repeat case_match; done.
Qed.

Lemma _expire_traps_vitals now s : vitals (_expire_traps now s) = vitals s.
Proof. unfold _expire_traps. by case_match. Qed.

Lemma _expire_traps_decisions now s : decisions (_expire_traps now s) = decisions s.
Proof. unfold _expire_traps. by case_match. Qed.

Lemma _expire_dissolved_nodes_vitals w h now s :
  vitals (_expire_dissolved_nodes w h now s) = vitals s.
Proof. unfold _expire_dissolved_nodes. by repeat case_match. Qed.

Lemma _expire_dissolved_nodes_active w h now s :
  let s' := _expire_dissolved_nodes w h now s in
  active_decisions s ⊆ active_decisions s'
  ∧ (∀ p, p ∈ active_decisions s' →
          p ∈ active_decisions s ∨ (p ∈ dissolved_coords s ∧ in_bounds w h p = true))
  ∧ dissolved_coords s' ⊆ dissolved_coords s.
Proof.
  unfold _expire_dissolved_nodes, dissolved_coords.
  destruct (dissolved_nodes s) as [d|] eqn:Hd; simpl; [|rewrite Hd; set_solver].
  case_bool_decide; simpl; [rewrite Hd; set_solver|]. split; [set_solver|]. split.
  - intros p [Hp|Hp]%elem_of_union; [by left|]. right.
    apply elem_of_filter in Hp as [Hb Hp]. split; [|done].
    by apply (dom_filter_subseteq _ d) in Hp.
  - apply dom_filter_subseteq.
Qed.

Lemma _grant_shield_bonus_if_needed_decisions s :
  decisions (_grant_shield_bonus_if_needed s) = decisions s.
Proof. by destruct (_grant_shield_bonus_if_needed_eq s) as (? & ? & -> & _). Qed.

Lemma _sync_shield_state_decisions now s :
  decisions (_sync_shield_state now s) = decisions s.
Proof.
  unfold _sync_shield_state. rewrite _grant_shield_bonus_if_needed_decisions.
  by repeat case_match.
Qed.

Lemma _sync_shield_state_spatial now s :
  let s' := _sync_shield_state now s in
  current_position s' = current_position s ∧ ally_position s' = ally_position s
  ∧ visited_nodes s' = visited_nodes s ∧ hero_health s' = hero_health s
  ∧ age s' = age s.
Proof.
  unfold _sync_shield_state.
  match goal with |- context [_grant_shield_bonus_if_needed ?s4] =>
    destruct (_grant_shield_bonus_if_needed_eq s4) as (sc & la & -> & _)
  end. by repeat case_match.
Qed.

Lemma _replenish_ally_jump_charges_vitals now s : vitals (_replenish_ally_jump_charges now s) = vitals s.
Proof. exact (replenish_vitals ally_jump now s). Qed.

Lemma _replenish_ally_jump_charges_decisions now s : decisions (_replenish_ally_jump_charges now s) = decisions s.
Proof. exact (replenish_decisions ally_jump now s). Qed.

Lemma _replenish_freeze_charges_vitals now s : vitals (_replenish_freeze_charges now s) = vitals s.
Proof. exact (replenish_vitals ally_freeze now s). Qed.

Lemma _replenish_freeze_charges_decisions now s : decisions (_replenish_freeze_charges now s) = decisions s.
Proof. exact (replenish_decisions ally_freeze now s). Qed.

Lemma _replenish_expand_charges_vitals now s : vitals (_replenish_expand_charges now s) = vitals s.
Proof. exact (replenish_vitals ally_expand now s). Qed.

Lemma _replenish_expand_charges_decisions now s : decisions (_replenish_expand_charges now s) = decisions s.
Proof. exact (replenish_decisions ally_expand now s). Qed.

Lemma _replenish_dissolve_charges_vitals now s : vitals (_replenish_dissolve_charges now s) = vitals s.
Proof. exact (replenish_vitals ally_dissolve now s). Qed.

Lemma _replenish_dissolve_charges_decisions now s : decisions (_replenish_dissolve_charges now s) = decisions s.
Proof. exact (replenish_decisions ally_dissolve now s). Qed.

Lemma _replenish_lift_charges_vitals now s : vitals (_replenish_lift_charges now s) = vitals s.
Proof. exact (replenish_vitals ally_lift now s). Qed.

Lemma _replenish_lift_charges_decisions now s : decisions (_replenish_lift_charges now s) = decisions s.
Proof. exact (replenish_decisions ally_lift now s). Qed.

Lemma _replenish_blink_charges_vitals now s : vitals (_replenish_blink_charges now s) = vitals s.
Proof. exact (replenish_vitals ally_blink now s). Qed.

Lemma _replenish_blink_charges_decisions now s : decisions (_replenish_blink_charges now s) = decisions s.
Proof. exact (replenish_decisions ally_blink now s). Qed.

Lemma _replenish_trap_charges_vitals now s : vitals (_replenish_trap_charges now s) = vitals s.
Proof. exact (replenish_vitals ally_trap now s). Qed.

Lemma _replenish_trap_charges_decisions now s : decisions (_replenish_trap_charges now s) = decisions s.
Proof. exact (replenish_decisions ally_trap now s). Qed.

(** The passes of [get_state_payload] before the shield pass. *)
Lemma payload_passes_eq w h now s :
  ∃ s8, payload_passes w h now s = _sync_shield_state now s8
        ∧ vitals s8 = vitals s
        ∧ decisions s8
          = decisions (_expire_dissolved_nodes w h now
                         (_replenish_dissolve_charges now
                            (_replenish_lift_charges now
                               (_replenish_expand_charges now
                                  (_replenish_freeze_charges now
                                     (_replenish_ally_jump_charges now s))))))
        ∧ decisions (_replenish_dissolve_charges now
                       (_replenish_lift_charges now
                          (_replenish_expand_charges now
                             (_replenish_freeze_charges now
                                (_replenish_ally_jump_charges now s)))))
          = decisions s.
Proof.
  unfold payload_passes. eexists. split; [reflexivity|].
  rewrite _expire_traps_vitals, _expire_traps_decisions,
    _replenish_trap_charges_vitals, _replenish_trap_charges_decisions,
    _expire_dissolved_nodes_vitals, _replenish_dissolve_charges_vitals,
    _replenish_lift_charges_vitals, _replenish_expand_charges_vitals,
    _replenish_freeze_charges_vitals, _replenish_ally_jump_charges_vitals,
    _replenish_dissolve_charges_decisions, _replenish_lift_charges_decisions,
    _replenish_expand_charges_decisions, _replenish_freeze_charges_decisions,
    _replenish_ally_jump_charges_decisions.
  done.
Qed.

(** ** The controller *)

Section ControllerFacts.
Context `{Collaborators}.

Lemma get_state_payload_fst now c :
  (get_state_payload now c).1
  = with_state (payload_passes (width (maze c)) (height (maze c)) now (state c)) c.
Proof. reflexivity. Qed.

Lemma get_state_payload_snd now c :
  (get_state_payload now c).2 = state_payload (get_state_payload now c).1.
Proof. reflexivity. Qed.

Lemma get_state_payload_shield now c :
  ∃ n, shield_charges (state (get_state_payload now c).1) = Some n
       ∧ 1 ≤ n
       ∧ payload_shield_charges (get_state_payload now c).2 = n
       ∧ (shield_charges (state c) = Some 0 → n = 1).
Proof.
  rewrite get_state_payload_snd, get_state_payload_fst.
  unfold state_payload. cbn [state with_state payload_shield_charges].
  destruct (payload_passes_eq (width (maze c)) (height (maze c)) now (state c))
    as (s8 & -> & Hs8 & _).
  destruct (_sync_shield_state_charges now s8) as (n & -> & Hn & Hzero).
  exists n. injection Hs8 as _ _ _ _ Hs8 _ _ _. rewrite Hs8 in Hzero. done.
Qed.

(** C10. After every call of [get_state_payload], and after the
    construction of the controller, the shield has at least one charge; a
    charge that [activate_shield] has consumed is back after the next read
    of the state. *)
Theorem shield_restored_by_state_read :
  (∀ now c,
     ∃ n, shield_charges (state (get_state_payload now c).1) = Some n
          ∧ 1 ≤ n
          ∧ payload_shield_charges (get_state_payload now c).2 = n
          ∧ (shield_charges (state c) = Some 0 → n = 1))
  ∧ (∀ st s m pv g now c,
       GameController_init st s m pv g now = inr c →
       ∃ n, shield_charges (state c) = Some n ∧ 1 ≤ n)
  ∧ (∀ now c c1 r,
       activate_shield now c = (c1, Returned r) →
       ∃ k, 0 ≤ k ∧ shield_charges (state c1) = Some k
            ∧ ∀ now', ∃ n, shield_charges (state (get_state_payload now' c1).1) = Some n
                           ∧ 1 ≤ n ∧ (k = 0 → n = 1)).
Proof.
  split; [apply get_state_payload_shield|]. split.
  - intros st s m pv g now c. unfold GameController_init.
    destruct (if bool_decide (active_decisions s = ∅) then _ else _) as [s0 g0].
    destruct (_build_wall_grid m) as [[wg gs]|]; [|done]. intros [= <-].
    cbn [state].
    match goal with |- context [_sync_shield_state now ?s15] =>
      destruct (_sync_shield_state_charges now s15) as (n & Hn & Hle & _)
    end. eauto.
  - intros now c c1 r. unfold activate_shield.
    set (c0 := on_state _grant_shield_bonus_if_needed c).
    case_bool_decide as Hk; [done|]. intros [= <- _].
    exists (default 0 (shield_charges (state c0)) - 1).
    split; [lia|]. split; [reflexivity|].
    intros now'.
    match goal with |- context [get_state_payload now' ?c1] =>
      destruct (get_state_payload_shield now' c1) as (n & Hn & Hle & _ & Hzero)
    end.
    exists n. split; [done|]. split; [done|]. intros Hz. apply Hzero.
    cbn [state save_now with_save_log on_state with_state shield_charges
         with_shield_active_until with_shield_charges]. f_equal. exact Hz.
Qed.
End ControllerFacts.

(** On the 3-by-3 session: the hero spends the only shield charge, and the
    next read of the state shows one charge again. *)
Lemma shield_restored_by_state_read_witness :
  ∃ c c1 r,
    Demo.controller0 = Some c
    ∧ activate_shield 100 c = (c1, Returned r)
    ∧ shield_charges (state c1) = Some 0
    ∧ shield_charges (state (get_state_payload 101 c1).1) = Some 1.
Proof.
  assert ((c ← Demo.controller0;
           Some ((activate_shield 100 c).2, shield_charges (state (activate_shield 100 c).1)))
          = Some (Returned (ReplyShield 0 110), Some 0)) as Hrun
    by (vm_compute; reflexivity).
  destruct Demo.controller0 as [c|]; [|discriminate Hrun].
  injection Hrun as Hout Hc1.
  destruct (activate_shield 100 c) as [c1 o] eqn:E1. simpl in Hout, Hc1. subst o.
  exists c, c1, (ReplyShield 0 110). do 3 (split; [done|]).
  destruct (proj2 (proj2 shield_restored_by_state_read) 100%Q c c1 _ E1)
    as (k & _ & Hk & Hread).
  destruct (Hread 101%Q) as (n & Hn & _ & Hone).
  rewrite Hn. f_equal. apply Hone. congruence.
Defined.
